(** * mcp-custom-command-line: parameter validation and command execution

    A shallow embedding of [src/executor.ts] (class [CommandExecutor]) and of
    the declarations of [schema.ts] it consumes, together with the part of the
    ECMAScript run-time the code relies on ([String(v)], [Number(v)],
    [isNaN], [typeof], [split], property access on a plain object).

    Modelling conventions
    - a JavaScript string is a [string] (a sequence of code units below 256);
    - a JavaScript number is an IEEE-754 binary64 value, [spec_float] with
      precision 53 and maximal exponent 1024, kept in canonical form;
    - the parameter object is the list of its own enumerable properties in
      the order [Object.entries] yields them; property names inherited from
      [Object.prototype] are not part of the model;
    - logging through the optional terminal has no effect on any returned
      value and is left out;
    - a statement that may raise is a [Completion]: a normal value or a
      thrown one. *)

From Stdlib Require Import ZArith List String Ascii Bool Lia Permutation.
From Stdlib Require Import DecimalString.
From Stdlib Require Import Floats.SpecFloat.
Import ListNotations.

Open Scope string_scope.

(* ================================================================== *)
(** ** The ECMAScript built-ins used by the executor *)
(* ================================================================== *)

Module ECMAScript.

Local Open Scope Z_scope.

(** The Number type: binary64. *)
Definition number : Type := spec_float.

Definition prec : Z := 53.
Definition emax : Z := 1024.

Definition NaN : number := S754_nan.

(** [isNaN(x)] for an argument that already is a Number. *)
Definition isNaN (x : number) : bool :=
  match x with
  | S754_nan => true
  | _ => false
  end.

(** The Number value of the real [p / d] ([0 <= p], [0 < d]) carrying sign
    [neg]: round to nearest, ties to even.  The quotient is computed with at
    least three guard bits and handed to the library's rounding. *)
Definition roundRatio (neg : bool) (p d : Z) : number :=
  let e := Zdigits2 p - Zdigits2 d - 56 in
  let num := if e <? 0 then Z.shiftl p (- e) else p in
  let den := if e <? 0 then d else Z.shiftl d e in
  let (q, r) := Z.div_eucl num den in
  binary_round_aux prec emax neg q e (new_location den r).

(** The Number value of the real [m * 10^x]. *)
Definition roundDecimal (neg : bool) (m x : Z) : number :=
  if x <? 0 then roundRatio neg m (10 ^ (- x)) else roundRatio neg (m * 10 ^ x) 1.

(** The Number value of an integer literal. *)
Definition ofZ (z : Z) : number := roundRatio (z <? 0) (Z.abs z) 1.

(** *** StringToNumber (ECMA-262, 7.1.4.1.1) *)

(** StrWhiteSpaceChar: TAB, LF, VT, FF, CR, SP, NBSP. *)
Definition isStrWhiteSpaceChar (c : ascii) : bool :=
  let n := Z.of_N (N_of_ascii c) in
  ((9 <=? n) && (n <=? 13)) || (n =? 32) || (n =? 160).

Fixpoint trimStart (s : string) : string :=
  match s with
  | String c r => if isStrWhiteSpaceChar c then trimStart r else s
  | EmptyString => EmptyString
  end.

Fixpoint trimEnd (s : string) : string :=
  match s with
  | String c r =>
      match trimEnd r with
      | EmptyString => if isStrWhiteSpaceChar c then EmptyString else String c EmptyString
      | r' => String c r'
      end
  | EmptyString => EmptyString
  end.

(** The value of a digit in the given radix, if it is one. *)
Definition digitOf (radix : Z) (c : ascii) : option Z :=
  let n := Z.of_N (N_of_ascii c) in
  let v := if (48 <=? n) && (n <=? 57) then n - 48
           else if (97 <=? n) && (n <=? 102) then n - 87
           else if (65 <=? n) && (n <=? 70) then n - 55
           else radix in
  if v <? radix then Some v else None.

(** Reads the longest run of digits: its value on top of [acc], how many
    digits were read on top of [count], and the rest of the string. *)
Fixpoint takeDigits (radix : Z) (s : string) (acc count : Z) : Z * Z * string :=
  match s with
  | String c r =>
      match digitOf radix c with
      | Some d => takeDigits radix r (acc * radix + d) (count + 1)
      | None => (acc, count, s)
      end
  | EmptyString => (acc, count, s)
  end.

(** ExponentPart_opt up to the end of the string. *)
Definition parseExponentPart (s : string) : option Z :=
  match s with
  | EmptyString => Some 0
  | String c r =>
      if (c =? "e")%char || (c =? "E")%char then
        let '(neg, r') :=
          match r with
          | String "+" t => (false, t)
          | String "-" t => (true, t)
          | _ => (false, r)
          end in
        let '(v, n, rest) := takeDigits 10 r' 0 0 in
        if (0 <? n) && (rest =? "")%string then Some (if neg then - v else v) else None
      else None
  end.

(** StrUnsignedDecimalLiteral other than [Infinity]: the digits read as an
    integer and the power of ten that scales it. *)
Definition parseStrUnsignedDecimalLiteral (s : string) : option (Z * Z) :=
  let '(i, ni, r1) := takeDigits 10 s 0 0 in
  match r1 with
  | String "." r2 =>
      let '(m, nf, r3) := takeDigits 10 r2 i 0 in
      if (0 <? ni) || (0 <? nf) then
        match parseExponentPart r3 with
        | Some x => Some (m, x - nf)
        | None => None
        end
      else None
  | _ =>
      if 0 <? ni then
        match parseExponentPart r1 with
        | Some x => Some (i, x)
        | None => None
        end
      else None
  end.

(** NonDecimalIntegerLiteral: [0x], [0o], [0b] and their digits. *)
Definition parseNonDecimalIntegerLiteral (s : string) : option Z :=
  match s with
  | String "0" (String c r) =>
      let radix := if (c =? "x")%char || (c =? "X")%char then 16
                   else if (c =? "o")%char || (c =? "O")%char then 8
                   else if (c =? "b")%char || (c =? "B")%char then 2
                   else 0 in
      let '(v, n, rest) := takeDigits radix r 0 0 in
      if (0 <? n) && (rest =? "")%string then Some v else None
  | _ => None
  end.

Definition StringToNumber (str : string) : number :=
  let t := trimEnd (trimStart str) in
  match t with
  | EmptyString => S754_zero false
  | String c r =>
      match parseNonDecimalIntegerLiteral t with
      | Some v => roundRatio false v 1
      | None =>
          let '(neg, u) :=
            if (c =? "-")%char then (true, r)
            else if (c =? "+")%char then (false, r)
            else (false, t) in
          if (u =? "Infinity")%string then S754_infinity neg
          else match parseStrUnsignedDecimalLiteral u with
               | Some (m, x) => roundDecimal neg m x
               | None => NaN
               end
      end
  end.

(** *** Number::toString, radix 10 (ECMA-262, 6.1.6.1.20) *)

Definition decimalDigits (z : Z) : string :=
  NilZero.string_of_uint (N.to_uint (Z.to_N z)).

Fixpoint zeros (n : nat) : string :=
  match n with
  | O => EmptyString
  | S k => String "0" (zeros k)
  end.

Definition sameNumber (x y : number) : bool :=
  match x, y with
  | S754_finite sx mx ex, S754_finite sy my ey =>
      Bool.eqb sx sy && (Zpos mx =? Zpos my) && (ex =? ey)
  | S754_zero sx, S754_zero sy => Bool.eqb sx sy
  | S754_infinity sx, S754_infinity sy => Bool.eqb sx sy
  | _, _ => false
  end.

Section Shortest.
(** The positive real [p / q] and the Number [x] it denotes: the search for
    integers [n], [k], [s] with [10^(k-1) <= s < 10^k], [s * 10^(n-k)]
    rounding to [x], and [k] as small as possible. *)
Variables (p q : Z) (x : number).

Definition belowPow10 (n : Z) : bool :=
  if n <? 0 then p * 10 ^ (- n) <? q else p <? q * 10 ^ n.

Fixpoint magnitude (fuel : nat) (n : Z) : Z :=
  if belowPow10 n then n
  else match fuel with
       | O => n
       | S f => magnitude f (n + 1)
       end.

(** The least [n] with [p / q < 10^n], searched upwards from a lower
    estimate taken from the binary lengths. *)
Definition n0 : Z :=
  magnitude 8 ((Zdigits2 p - Zdigits2 q - 1) * 30103 / 100000 - 1).

(** With [k] digits only the two neighbours of [p / q] can round to [x];
    of two that do, the nearer one is taken, the even one on a tie. *)
Definition candidate (k : Z) : option (Z * Z) :=
  let j := n0 - k in
  let num := if j <? 0 then p * 10 ^ (- j) else p in
  let den := if j <? 0 then q else q * 10 ^ j in
  let (lo, r) := Z.div_eucl num den in
  let hi := lo + 1 in
  let loOk := sameNumber (roundDecimal false lo j) x in
  let hiOk := sameNumber (roundDecimal false hi j) x in
  let norm s := if s =? 10 ^ k then (n0 + 1, 10 ^ (k - 1)) else (n0, s) in
  match loOk, hiOk with
  | true, true =>
      match 2 * r ?= den with
      | Lt => Some (norm lo)
      | Gt => Some (norm hi)
      | Eq => Some (norm (if Z.even lo then lo else hi))
      end
  | true, false => Some (norm lo)
  | false, true => Some (norm hi)
  | false, false => None
  end.

Fixpoint shortest (fuel : nat) (k : Z) : Z * Z * Z :=
  match candidate k with
  | Some (n, s) => (n, k, s)
  | None =>
      match fuel with
      | O => (n0, k, if n0 - k <? 0 then p * 10 ^ (k - n0) / q
                     else p / (q * 10 ^ (n0 - k)))
      | S f => shortest f (k + 1)
      end
  end.
End Shortest.

Definition positiveToString (m : positive) (e : Z) : string :=
  let p := if e <? 0 then Zpos m else Z.shiftl (Zpos m) e in
  let q := if e <? 0 then Z.shiftl 1 (- e) else 1 in
  let '(n, k, s) := shortest p q (roundRatio false p q) 16 1 in
  let digits := decimalDigits s in
  if (k <=? n) && (n <=? 21) then digits ++ zeros (Z.to_nat (n - k))
  else if (0 <? n) && (n <=? 21) then
    substring 0 (Z.to_nat n) digits ++ "." ++
    substring (Z.to_nat n) (Z.to_nat (k - n)) digits
  else if (-6 <? n) && (n <=? 0) then "0." ++ zeros (Z.to_nat (- n)) ++ digits
  else
    let ex := n - 1 in
    let tail := "e" ++ (if ex <? 0 then "-" else "+") ++ decimalDigits (Z.abs ex) in
    if k =? 1 then digits ++ tail
    else substring 0 1 digits ++ "." ++ substring 1 (Z.to_nat (k - 1)) digits ++ tail.

Definition NumberToString (x : number) : string :=
  match x with
  | S754_nan => "NaN"
  | S754_zero _ => "0"
  | S754_infinity false => "Infinity"
  | S754_infinity true => "-Infinity"
  | S754_finite neg m e => (if neg then "-" else "") ++ positiveToString m e
  end.

(** *** [String.prototype.split] with the separator [" "] *)

Fixpoint split_space (s : string) : list string :=
  match s with
  | EmptyString => [EmptyString]
  | String c r =>
      if (c =? " ")%char then EmptyString :: split_space r
      else match split_space r with
           | h :: t => String c h :: t
           | [] => [String c EmptyString]
           end
  end.

(** *** [Array.prototype.push] *)

Definition push {A : Type} (array : list A) (element : A) : list A :=
  (array ++ [element])%list.

(** *** Completions: a statement returns normally or throws *)

(** A thrown value: an [Error] object with its [message], or any other value,
    given by what [String(value)] makes of it. *)
Inductive Thrown : Type :=
  | ErrorObject (message : string)
  | OtherValue (text : string).

Inductive Completion (A : Type) : Type :=
  | Normal (a : A)
  | Throw (e : Thrown).

Arguments Normal {A} a.
Arguments Throw {A} e.

Definition bind {A B : Type} (m : Completion A) (k : A -> Completion B) : Completion B :=
  match m with
  | Normal a => k a
  | Throw e => Throw e
  end.

(** [try { body } catch (error) { handler }] *)
Definition tryCatch {A : Type} (body : Completion A) (handler : Thrown -> Completion A)
  : Completion A :=
  match body with
  | Normal a => Normal a
  | Throw e => handler e
  end.

End ECMAScript.

Notation "x <- m ;; k" := (ECMAScript.bind m (fun x => k))
  (at level 61, m at next level, right associativity).

(* ================================================================== *)
(** ** schema.ts: the declarations consumed by the executor *)
(* ================================================================== *)

Module Schema.

(** [string | number | boolean]: the scalars a parameter or a default holds. *)
Inductive Scalar : Type :=
  | VString (s : string)
  | VNumber (n : ECMAScript.number)
  | VBoolean (b : bool).

(** The [type] field of an argument: ["string" | "number" | "boolean"]. *)
Inductive ArgumentType : Type :=
  | TString
  | TNumber
  | TBoolean.

(** [interface ICommandArgument]; [defaultValue] is optional. *)
Record ICommandArgument : Type := {
  arg_name : string;
  arg_description : string;
  arg_type : ArgumentType;
  arg_required : bool;
  arg_defaultValue : option Scalar
}.

(** [interface ICommandLineEntry] *)
Record ICommandLineEntry : Type := {
  cmd_name : string;
  cmd_description : string;
  cmd_command : string;
  cmd_arguments : list ICommandArgument
}.

End Schema.

(* ================================================================== *)
(** ** executor.ts: class CommandExecutor *)
(* ================================================================== *)

Module Executor.

Import ECMAScript Schema.

(** [interface ICommandExecutionResult] *)
Record ICommandExecutionResult : Type := {
  success : bool;
  stdout : string;
  stderr : string;
  exitCode : Z
}.

(** [interface ICommandExecutionParams]: the own properties of the object, in
    [Object.entries] order. *)
Definition ICommandExecutionParams : Type := list (string * Scalar).

(** [name in params] *)
Definition hasProperty (params : ICommandExecutionParams) (name : string) : bool :=
  existsb (fun entry => (fst entry =? name)%string) params.

(** [params[name]]; [None] is [undefined]. *)
Definition getProperty (params : ICommandExecutionParams) (name : string) : option Scalar :=
  option_map snd (find (fun entry => (fst entry =? name)%string) params).

(** [Object.entries(params)] *)
Definition Object_entries (params : ICommandExecutionParams) : list (string * Scalar) :=
  params.

(** [typeof value] *)
Definition typeof (value : Scalar) : string :=
  match value with
  | VString _ => "string"
  | VNumber _ => "number"
  | VBoolean _ => "boolean"
  end.

(** [value === text] against a string literal. *)
Definition strictEqualsString (value : Scalar) (text : string) : bool :=
  match value with
  | VString s => (s =? text)%string
  | _ => false
  end.

(** [String(value)] *)
Definition String_ (value : Scalar) : string :=
  match value with
  | VString s => s
  | VNumber n => NumberToString n
  | VBoolean true => "true"
  | VBoolean false => "false"
  end.

(** [Number(value)] *)
Definition Number_ (value : Scalar) : number :=
  match value with
  | VString s => StringToNumber s
  | VNumber n => n
  | VBoolean true => ofZ 1
  | VBoolean false => ofZ 0
  end.

(** Truthiness of a string: [if (typeError)] and [result.stdout || '']. *)
Definition truthy (s : string) : bool := negb (s =? "")%string.

(** The two message templates. *)
Definition missingMessage (name : string) : string :=
  "Required argument '" ++ name ++ "' is missing".

Definition typeNameOf (t : ArgumentType) : string :=
  match t with
  | TString => "string"
  | TNumber => "number"
  | TBoolean => "boolean"
  end.

Definition typeMessage (name : string) (t : ArgumentType) : string :=
  "Argument '" ++ name ++ "' must be a " ++ typeNameOf t.

(** [_validateArgumentType], lines 192-221; [None] is [undefined]. *)
Definition _validateArgumentType (argDef : ICommandArgument) (value : Scalar)
  : option string :=
  match arg_type argDef with
  | TString =>
      if negb (typeof value =? "string")%string
      then Some ("Argument '" ++ arg_name argDef ++ "' must be a string")
      else None
  | TNumber =>
      if negb (typeof value =? "number")%string && isNaN (Number_ value)
      then Some ("Argument '" ++ arg_name argDef ++ "' must be a number")
      else None
  | TBoolean =>
      if negb (typeof value =? "boolean")%string
         && negb (strictEqualsString value "true")
         && negb (strictEqualsString value "false")
      then Some ("Argument '" ++ arg_name argDef ++ "' must be a boolean")
      else None
  end.

(** [validateParameters], lines 117-154: two loops pushing onto [errors]. *)
Definition validateParameters (command : ICommandLineEntry)
  (params : ICommandExecutionParams) : list string :=
  let errors : list string := [] in
  (* Check required arguments *)
  let errors :=
    fold_left
      (fun errors arg =>
         if arg_required arg && negb (hasProperty params (arg_name arg))
         then push errors ("Required argument '" ++ arg_name arg ++ "' is missing")
         else errors)
      (cmd_arguments command) errors in
  (* Check argument types *)
  let errors :=
    fold_left
      (fun errors entry =>
         let '(paramName, paramValue) := entry in
         match find (fun a => (arg_name a =? paramName)%string) (cmd_arguments command) with
         | Some argDef =>
             match _validateArgumentType argDef paramValue with
             | Some typeError =>
                 if truthy typeError then push errors typeError else errors
             | None => errors
             end
         | None => errors
         end)
      (Object_entries params) errors in
  errors.

(** Lines 165-171 of [_buildCommandArguments]: the value of one declared
    argument, the parameter first and the declared default otherwise. *)
Definition resolveValue (params : ICommandExecutionParams) (argDef : ICommandArgument)
  : option Scalar :=
  let value := getProperty params (arg_name argDef) in
  match value, arg_defaultValue argDef with
  | None, Some d => Some d
  | _, _ => value
  end.

(** [_buildCommandArguments], lines 159-187: one loop pushing onto [args]. *)
Definition _buildCommandArguments (command : ICommandLineEntry)
  (params : ICommandExecutionParams) : list string :=
  let args : list string := [] in
  fold_left
    (fun args argDef =>
       match resolveValue params argDef with
       | None => args
       | Some value =>
           let args := push args ("--" ++ arg_name argDef) in
           push args (String_ value)
       end)
    (cmd_arguments command) args.

(** What [Executable.spawnSync] hands back, as far as the executor reads it:
    [status] is [number | null]; a captured stream may be absent. *)
Record SpawnSyncReturns : Type := {
  spawn_status : option Z;
  spawn_stdout : option string;
  spawn_stderr : option string
}.

(** [stream || ''] *)
Definition orEmpty (stream : option string) : string :=
  match stream with
  | Some s => if truthy s then s else ""
  | None => ""
  end.

(** [error instanceof Error ? error.message : String(error)] *)
Definition errorMessage (error : Thrown) : string :=
  match error with
  | ErrorObject message => message
  | OtherValue text => text
  end.

Section Process.

(** [Executable.spawnSync(executable, allArgs, {stdio: pipes})]: the
    operating system's part, which returns when the child has ended or
    throws when the child could not be started. *)
Variable spawnSync : string -> list string -> Completion SpawnSyncReturns.

(** The executable and the full argument list handed to [spawnSync],
    lines 47-60. *)
Definition commandLine (command : ICommandLineEntry) (params : ICommandExecutionParams)
  : string * list string :=
  let args := _buildCommandArguments command params in
  let commandParts := split_space (cmd_command command) in
  let executable := hd "" commandParts in
  let baseArgs := tl commandParts in
  let allArgs := (baseArgs ++ args)%list in
  (executable, allArgs).

(** [executeCommand], lines 36-112. *)
Definition executeCommand (command : ICommandLineEntry)
  (params : ICommandExecutionParams) : Completion ICommandExecutionResult :=
  tryCatch
    (let '(executable, allArgs) := commandLine command params in
     result <- spawnSync executable allArgs ;;
     (* result.status === 0 *)
     let success :=
       match spawn_status result with
       | Some code => (code =? 0)%Z
       | None => false
       end in
     let stdout := orEmpty (spawn_stdout result) in
     let stderr := orEmpty (spawn_stderr result) in
     (* result.status || 0: null and 0 both give 0 *)
     let exitCode :=
       match spawn_status result with
       | Some code => code
       | None => 0%Z
       end in
     Normal {| success := success; stdout := stdout; stderr := stderr;
               exitCode := exitCode |})
    (fun error =>
       let errorMsg := errorMessage error in
       Normal {| success := false; stdout := ""; stderr := errorMsg;
                 exitCode := (-1)%Z |}).

End Process.

(** *** The specification's wording, for comparison with the code *)

(** Section 4.1, type conformance: a string for [string]; a number, or a
    value whose numeric coercion is not not-a-number, for [number]; a boolean
    or one of the strings ["true"], ["false"] for [boolean]. *)
Definition conformsSpec (t : ArgumentType) (value : Scalar) : bool :=
  match t, value with
  | TString, VString _ => true
  | TString, _ => false
  | TNumber, VNumber _ => true
  | TNumber, v => negb (isNaN (Number_ v))
  | TBoolean, VBoolean _ => true
  | TBoolean, VString s => (s =? "true")%string || (s =? "false")%string
  | TBoolean, VNumber _ => false
  end.

(** Section 4.2, argument-vector construction: what one declared argument
    contributes to the vector. *)
Definition contributionSpec (params : ICommandExecutionParams) (argDef : ICommandArgument)
  : list string :=
  match getProperty params (arg_name argDef) with
  | Some v => ["--" ++ arg_name argDef; String_ v]
  | None =>
      match arg_defaultValue argDef with
      | Some d => ["--" ++ arg_name argDef; String_ d]
      | None => []
      end
  end.

(** Section 4.1, step 1: one message per required argument that is absent,
    in declaration order. *)
Definition requiredErrorsSpec (command : ICommandLineEntry)
  (params : ICommandExecutionParams) : list string :=
  flat_map
    (fun arg =>
       if arg_required arg && negb (hasProperty params (arg_name arg))
       then [missingMessage (arg_name arg)]
       else [])
    (cmd_arguments command).

(** Section 4.1, step 2: one message per supplied parameter that has a
    declaration and does not conform to its type, in parameter order. *)
Definition typeErrorsSpec (command : ICommandLineEntry)
  (params : ICommandExecutionParams) : list string :=
  flat_map
    (fun entry =>
       match find (fun a => (arg_name a =? fst entry)%string) (cmd_arguments command) with
       | Some argDef =>
           if conformsSpec (arg_type argDef) (snd entry) then []
           else [typeMessage (fst entry) (arg_type argDef)]
       | None => []
       end)
    params.

(** The parameter object without its property [name]. *)
Definition deleteProperty (name : string) (params : ICommandExecutionParams)
  : ICommandExecutionParams :=
  filter (fun entry => negb (fst entry =? name)%string) params.

End Executor.

(* ================================================================== *)
(** ** Sample declarations: the scenarios of the specification *)
(* ================================================================== *)

Module Samples.

Import ECMAScript Schema Executor.

(** [{name:"message", type:"string", required:true}] *)
Definition messageArg : ICommandArgument :=
  {| arg_name := "message"; arg_description := "The message to echo";
     arg_type := TString; arg_required := true; arg_defaultValue := None |}.

(** [{name:"count", type:"number", defaultValue:10, required:false}] *)
Definition countArg : ICommandArgument :=
  {| arg_name := "count"; arg_description := "How many";
     arg_type := TNumber; arg_required := false;
     arg_defaultValue := Some (VNumber (ofZ 10)) |}.

(** [{name:"verbose", type:"boolean", required:false}] *)
Definition verboseArg : ICommandArgument :=
  {| arg_name := "verbose"; arg_description := "Verbose output";
     arg_type := TBoolean; arg_required := false; arg_defaultValue := None |}.

(** [{name:"level", type:"number", defaultValue:3, required:true}] *)
Definition levelArg : ICommandArgument :=
  {| arg_name := "level"; arg_description := "Level";
     arg_type := TNumber; arg_required := true;
     arg_defaultValue := Some (VNumber (ofZ 3)) |}.

(** [{name:"echo-test", command:"echo", arguments:[message]}] *)
Definition echoTest : ICommandLineEntry :=
  {| cmd_name := "echo-test"; cmd_description := "Echo a message";
     cmd_command := "echo"; cmd_arguments := [messageArg] |}.

Definition listing : ICommandLineEntry :=
  {| cmd_name := "listing"; cmd_description := "List things";
     cmd_command := "ls -l"; cmd_arguments := [messageArg; countArg; verboseArg; levelArg] |}.

(** A child that ran and exited with [code], echoing its arguments. *)
Definition spawnEcho (code : Z) (executable : string) (args : list string)
  : Completion SpawnSyncReturns :=
  Normal {| spawn_status := Some code;
            spawn_stdout := Some (String.concat " " args ++ String (ascii_of_nat 10) "");
            spawn_stderr := Some "" |}.

(** A child that was ended by a signal: [status] is [null]. *)
Definition spawnKilled (out err : option string) (executable : string) (args : list string)
  : Completion SpawnSyncReturns :=
  Normal {| spawn_status := None; spawn_stdout := out; spawn_stderr := err |}.

(** An executable that cannot be started. *)
Definition spawnNotFound (executable : string) (args : list string)
  : Completion SpawnSyncReturns :=
  Throw (ErrorObject ("The executable file was not found: " ++ executable)).

End Samples.

(* ================================================================== *)
(** ** Further built-ins: strings, arrays, objects as records *)
(* ================================================================== *)

Module Builtins.

Import ECMAScript.

(** [String.prototype.includes]: [search] occurs somewhere in [s]. *)
Fixpoint includes (s search : string) : bool :=
  prefix search s
  || match s with
     | EmptyString => false
     | String _ r => includes r search
     end.

(** [Array.prototype.join] *)
Definition join (separator : string) (elements : list string) : string :=
  String.concat separator elements.

(** [String.prototype.trim] *)
Definition trim (s : string) : string := trimEnd (trimStart s).

(** The line feed of ["\n"]. *)
Definition LF : string := String (ascii_of_nat 10) EmptyString.

(** Truthiness of an optional string: [undefined] and [""] are falsy. *)
Definition truthyOption (s : option string) : bool :=
  match s with
  | Some text => negb (text =? "")%string
  | None => false
  end.

(** A value interpolated into a template literal; [undefined] prints as
    such. *)
Definition interpolate (s : option string) : string :=
  match s with
  | Some text => text
  | None => "undefined"
  end.

(** An exit code interpolated into a template literal. *)
Definition interpolateNumber (z : Z) : string := NumberToString (ofZ z).

(** The characters ["0"] to ["9"]. *)
Definition decimalDigitCode (c : ascii) : Prop :=
  (48 <= Z.of_N (N_of_ascii c) <= 57)%Z.




End Builtins.

(* ================================================================== *)
(** ** schema.ts, configuration.ts and the configuration part of index.ts *)
(* ================================================================== *)

Module Loading.

Import ECMAScript Schema Executor Builtins.

(** [interface IConfig] *)
Record IConfig : Type := {
  version : string;
  commands : list ICommandLineEntry
}.

(** What Ajv reports about a document: [validate(data)] and
    [validate.errors], each error with its [instancePath] and optional
    [message]. *)
Record AjvError : Type := {
  instancePath : string;
  ajv_message : option string
}.

Record AjvOutcome : Type := {
  isValid : bool;
  ajv_errors : option (list AjvError)
}.

(** The surroundings of the loader: the file system, the JSON parser, the
    schema compiler, the process environment and the standard input.  [Json]
    is the type of parsed documents ([unknown] in the source); [asIConfig]
    is the cast [data as IConfig]. *)
Record World (Json : Type) : Type := {
  schemaPath : string;
  FileSystem_exists : string -> bool;
  FileSystem_readFile : string -> Completion string;
  JsonFile_load : string -> Completion Json;
  JSON_parse : string -> Completion Json;
  ajv_compile : Json -> Completion (Json -> AjvOutcome);
  asIConfig : Json -> IConfig;
  CONFIG_FILE_PATH_ENV : option string;
  CONFIG_JSON_ENV : option string;
  stdin_data : Completion string
}.

Arguments schemaPath {Json} w.
Arguments FileSystem_exists {Json} w path.
Arguments FileSystem_readFile {Json} w path.
Arguments JsonFile_load {Json} w path.
Arguments JSON_parse {Json} w text.
Arguments ajv_compile {Json} w schema.
Arguments asIConfig {Json} w data.
Arguments CONFIG_FILE_PATH_ENV {Json} w.
Arguments CONFIG_JSON_ENV {Json} w.
Arguments stdin_data {Json} w.

(** [error instanceof Error && error.message.includes(text)] *)
Definition isErrorIncluding (error : Thrown) (text : string) : bool :=
  match error with
  | ErrorObject message => includes message text
  | OtherValue _ => false
  end.

Section Loader.

Context {Json : Type}.
Variable w : World Json.

(** *** schema.ts *)

(** [getSchema], lines 55-78. *)
Definition getSchema : Completion Json :=
  let schemaPath := schemaPath w in
  if negb (FileSystem_exists w schemaPath) then
    Throw (ErrorObject ("Schema file not found: " ++ schemaPath))
  else
    tryCatch
      (schemaContent <- FileSystem_readFile w schemaPath ;;
       parsedSchema <- JSON_parse w schemaContent ;;
       Normal parsedSchema)
      (fun error =>
         Throw (ErrorObject ("Failed to parse schema file: " ++ errorMessage error))).

(** [validateConfig], lines 83-116.  [getValidator] (lines 43-50) hands out
    the one Ajv instance of the process; creating it and compiling the schema
    with it is [ajv_compile]. *)
Definition validateConfig (data : Json) : Completion IConfig :=
  tryCatch
    (schema <- getSchema ;;
     validate <- ajv_compile w schema ;;
     let outcome := validate data in
     if negb (isValid outcome) then
       let errorMessages :=
         map (fun error => instancePath error ++ ": " ++ interpolate (ajv_message error))
             (match ajv_errors outcome with
              | Some errors => errors
              | None => []
              end) in
       Throw (ErrorObject ("Configuration validation failed: " ++ join ", " errorMessages))
     else Normal (asIConfig w data))
    (fun error =>
       if isErrorIncluding error "Configuration validation failed" then Throw error
       else Throw (ErrorObject ("Schema validation process failed: " ++ errorMessage error))).

(** *** configuration.ts: class ConfigurationManager *)

(** The fields [_config] and [_configFilePath]. *)
Record ConfigurationManager : Type := {
  _config : option IConfig;
  _configFilePath : string
}.

(** The constructor, lines 13-17. *)
Definition newConfigurationManager (configFilePath : string) : ConfigurationManager :=
  {| _config := None; _configFilePath := configFilePath |}.

(** [loadConfig], lines 22-57: the manager afterwards and how the call
    ended. *)
Definition loadConfig (this : ConfigurationManager)
  : ConfigurationManager * Completion unit :=
  let attempt : Completion IConfig :=
    tryCatch
      (if negb (FileSystem_exists w (_configFilePath this)) then
         Throw (ErrorObject ("Configuration file not found: " ++ _configFilePath this))
       else
         configData <- JsonFile_load w (_configFilePath this) ;;
         validateConfig configData)
      (fun error =>
         Throw (ErrorObject ("Failed to load configuration: " ++ errorMessage error))) in
  match attempt with
  | Normal config =>
      ({| _config := Some config; _configFilePath := _configFilePath this |}, Normal tt)
  | Throw error => (this, Throw error)
  end.

(** [getConfig], lines 62-73. *)
Definition getConfig (this : ConfigurationManager) : Completion IConfig :=
  match _config this with
  | None => Throw (ErrorObject "Configuration not loaded. Call loadConfig() first.")
  | Some config => Normal config
  end.

(** [getCommands], lines 78-83. *)
Definition getCommands (this : ConfigurationManager) : Completion (list ICommandLineEntry) :=
  config <- getConfig this ;;
  Normal (commands config).

(** [getCommand], lines 88-99; [None] is [undefined]. *)
Definition getCommand (this : ConfigurationManager) (name : string)
  : Completion (option ICommandLineEntry) :=
  all <- getCommands this ;;
  Normal (find (fun cmd => (cmd_name cmd =? name)%string) all).

(** [isLoaded], lines 104-108. *)
Definition isLoaded (this : ConfigurationManager) : bool :=
  match _config this with
  | Some _ => true
  | None => false
  end.

(** *** index.ts: where the configuration comes from *)

(** [readConfigFromStdin], lines 69-91: everything read, trimmed. *)
Definition readConfigFromStdin : Completion string :=
  data <- stdin_data w ;;
  Normal (trim data).

(** The two branches that parse a JSON text given directly, lines 108-117
    and 130-139. *)
Definition fromJsonText (label text : string) : Completion IConfig :=
  tryCatch
    (configData <- JSON_parse w text ;;
     validateConfig configData)
    (fun error => Throw (ErrorObject (label ++ errorMessage error))).

(** The two branches that load a file, lines 122-125 and 144-147. *)
Definition fromFile (path : string) : Completion IConfig :=
  let configManager := newConfigurationManager path in
  let '(configManager, loaded) := loadConfig configManager in
  _ <- loaded ;;
  getConfig configManager.

(** [resolveConfiguration], lines 96-167; [args] is the pair of
    [--config-file] and [--config]. *)
Definition resolveConfiguration (configFile config : option string) : Completion IConfig :=
  if truthyOption config then
    fromJsonText "Failed to parse --config JSON: " (interpolate config)
  else if truthyOption configFile then
    fromFile (interpolate configFile)
  else if truthyOption (CONFIG_JSON_ENV w) then
    fromJsonText "Failed to parse MCP_CLI_CONFIG_JSON: " (interpolate (CONFIG_JSON_ENV w))
  else if truthyOption (CONFIG_FILE_PATH_ENV w) then
    fromFile (interpolate (CONFIG_FILE_PATH_ENV w))
  else
    tryCatch
      (stdinData <- readConfigFromStdin ;;
       if negb (truthy stdinData) then
         Throw (ErrorObject "No configuration provided via stdin")
       else
         configData <- JSON_parse w stdinData ;;
         validateConfig configData)
      (fun error =>
         Throw (ErrorObject ("Failed to read/parse configuration from stdin: "
                             ++ errorMessage error))).

End Loader.

End Loading.

(* ================================================================== *)
(** ** index.ts: registering a command as a tool *)
(* ================================================================== *)

Module Server.

Import ECMAScript Schema Executor Builtins.




(** One element of [content] and the reply of a tool call. *)
Record TextContent : Type := {
  content_type : string;
  text : string
}.

Record CallToolResult : Type := {
  content : list TextContent;
  isError : bool
}.

Section Handler.

Variable spawnSync : string -> list string -> Completion SpawnSyncReturns.

(** The callback given to [server.tool], lines 219-266. *)
Definition toolCallback (command : ICommandLineEntry) (params : ICommandExecutionParams)
  : Completion CallToolResult :=
  tryCatch
    (let validationErrors := validateParameters command params in
     _ <- (if (0 <? List.length validationErrors)%nat then
             Throw (ErrorObject ("Parameter validation failed: "
                                 ++ join ", " validationErrors))
           else Normal tt) ;;
     result <- executeCommand spawnSync command params ;;
     let responseText :=
       if success result then
         "Command executed successfully:" ++ LF ++ LF ++ "STDOUT:" ++ LF ++ stdout result
         ++ LF ++ LF ++ "STDERR:" ++ LF ++ stderr result
         ++ LF ++ LF ++ "Exit Code: " ++ interpolateNumber (exitCode result)
       else
         "Command failed:" ++ LF ++ LF ++ "STDOUT:" ++ LF ++ stdout result
         ++ LF ++ LF ++ "STDERR:" ++ LF ++ stderr result
         ++ LF ++ LF ++ "Exit Code: " ++ interpolateNumber (exitCode result) in
     Normal {| content := [{| content_type := "text"; text := responseText |}];
               isError := negb (success result) |})
    (fun error =>
       let errorMsg := "Error executing command: " ++ errorMessage error in
       Normal {| content := [{| content_type := "text"; text := errorMsg |}];
                 isError := true |}).

End Handler.

(** [initializeTerminal], lines 59-64: the two switches of the console
    provider, from [LOG_LEVEL] and [DEBUG]. *)
Definition initializeTerminal (LOG_LEVEL DEBUG : option string) : bool * bool :=
  let equals (v : option string) (text : string) :=
    match v with
    | Some s => (s =? text)%string
    | None => false
    end in
  let verboseEnabled := equals LOG_LEVEL "verbose" || equals DEBUG "1" in
  let debugEnabled := equals LOG_LEVEL "debug" || equals DEBUG "1" in
  (verboseEnabled, debugEnabled).

End Server.

(* ================================================================== *)
(** ** Sample surroundings *)
(* ================================================================== *)

Module Worlds.

Import ECMAScript Schema Executor Builtins Loading.

(** A configuration with two commands. *)
Definition sampleConfig : IConfig :=
  {| version := "1.0"; commands := [Samples.echoTest; Samples.listing] |}.

(** Documents are configurations or the marker [None] for anything else; the
    file ["config.json"] holds [sampleConfig], the schema file exists, and
    the validator accepts exactly the configurations with a version. *)
Definition sampleWorld : World (option IConfig) :=
  {| schemaPath := "dist/config-schema.json";
     FileSystem_exists := fun path =>
       (path =? "dist/config-schema.json")%string || (path =? "config.json")%string;
     FileSystem_readFile := fun _ => Normal "{}";
     JsonFile_load := fun path =>
       if (path =? "config.json")%string then Normal (Some sampleConfig)
       else Throw (ErrorObject "Unexpected token");
     JSON_parse := fun text =>
       if (text =? "{}")%string then Normal None
       else if (text =? "sample")%string then Normal (Some sampleConfig)
       else Throw (ErrorObject "Unexpected token");
     ajv_compile := fun _ =>
       Normal (fun data =>
                 match data with
                 | Some _ => {| isValid := true; ajv_errors := None |}
                 | None =>
                     {| isValid := false;
                        ajv_errors :=
                          Some [{| instancePath := "";
                                   ajv_message := Some "must have required property 'version'" |};
                                {| instancePath := "/commands";
                                   ajv_message := None |}] |}
                 end);
     asIConfig := fun data =>
       match data with
       | Some config => config
       | None => {| version := ""; commands := [] |}
       end;
     CONFIG_FILE_PATH_ENV := Some "config.json";
     CONFIG_JSON_ENV := None;
     stdin_data := Normal "   " |}.

(** The same surroundings without the schema file. *)
Definition worldWithoutSchema : World (option IConfig) :=
  {| schemaPath := "dist/config-schema.json";
     FileSystem_exists := fun path => (path =? "config.json")%string;
     FileSystem_readFile := FileSystem_readFile sampleWorld;
     JsonFile_load := JsonFile_load sampleWorld;
     JSON_parse := JSON_parse sampleWorld;
     ajv_compile := ajv_compile sampleWorld;
     asIConfig := asIConfig sampleWorld;
     CONFIG_FILE_PATH_ENV := None;
     CONFIG_JSON_ENV := None;
     stdin_data := Normal "sample" |}.

End Worlds.

Import ECMAScript Schema Executor.

(* ================================================================== *)
(** ** Auxiliary facts: strings and messages *)
(* ================================================================== *)

Section StringFacts.

Lemma chars_append (a b : string) :
  list_ascii_of_string (a ++ b)
  = (list_ascii_of_string a ++ list_ascii_of_string b)%list.
Proof.
  induction a as [|c a IH]; simpl; [reflexivity | now rewrite IH].
Qed.

Lemma chars_inj (a b : string) :
  list_ascii_of_string a = list_ascii_of_string b -> a = b.
Proof.
  intros H.
  rewrite <- (string_of_list_ascii_of_string a), <- (string_of_list_ascii_of_string b).
  now rewrite H.
Qed.

Lemma append_inv_head (s a b : string) : s ++ a = s ++ b -> a = b.
Proof.
  induction s as [|c s IH]; simpl; intros H; [assumption|].
  injection H as H. auto.
Qed.

Lemma append_inv_tail (s a b : string) : a ++ s = b ++ s -> a = b.
Proof.
  intros H. apply chars_inj.
  apply (f_equal list_ascii_of_string) in H.
  rewrite !chars_append in H.
  now apply app_inv_tail in H.
Qed.

(** [split] always yields a first element, so [commandParts[0]] is defined. *)
Lemma split_space_nonempty (s : string) : split_space s <> [].
Proof.
  destruct s as [|c r]; simpl; [discriminate|].
  destruct (c =? " ")%char; [discriminate|].
  destruct (split_space r); discriminate.
Qed.

(** Two equal strings end with the same character. *)
Lemma last_char_eq (a b s t : string) (c d : ascii) :
  a ++ s ++ String c "" = b ++ t ++ String d "" -> c = d.
Proof.
  intros H.
  apply (f_equal (fun x => List.rev (list_ascii_of_string x))) in H.
  rewrite !chars_append, !rev_app_distr in H.
  simpl in H. now injection H.
Qed.

End StringFacts.

Section Messages.

Lemma missingMessage_inj (a b : string) :
  missingMessage a = missingMessage b -> a = b.
Proof.
  unfold missingMessage. intros H.
  apply append_inv_head in H. now apply append_inv_tail in H.
Qed.

Lemma typeMessage_inj (a b : string) (t u : ArgumentType) :
  typeMessage a t = typeMessage b u -> a = b /\ t = u.
Proof.
  unfold typeMessage. intros H.
  apply append_inv_head in H.
  assert (Htu : t = u).
  { destruct t, u; try reflexivity; exfalso.
    - apply (last_char_eq a b "' must be a strin" "' must be a numbe" "g" "r") in H.
      discriminate H.
    - apply (last_char_eq a b "' must be a strin" "' must be a boolea" "g" "n") in H.
      discriminate H.
    - apply (last_char_eq a b "' must be a numbe" "' must be a strin" "r" "g") in H.
      discriminate H.
    - apply (last_char_eq a b "' must be a numbe" "' must be a boolea" "r" "n") in H.
      discriminate H.
    - apply (last_char_eq a b "' must be a boolea" "' must be a strin" "n" "g") in H.
      discriminate H.
    - apply (last_char_eq a b "' must be a boolea" "' must be a numbe" "n" "r") in H.
      discriminate H. }
  subst u. split; [|reflexivity].
  now apply append_inv_tail in H.
Qed.

Lemma missingMessage_not_typeMessage (a b : string) (t : ArgumentType) :
  missingMessage a <> typeMessage b t.
Proof. unfold missingMessage, typeMessage. simpl. discriminate. Qed.

Lemma typeMessage_truthy (a : string) (t : ArgumentType) :
  truthy (typeMessage a t) = true.
Proof. reflexivity. Qed.

End Messages.

(* ================================================================== *)
(** ** The loops of the executor against the specification's wording *)
(* ================================================================== *)

Section Loops.

(** A loop that only pushes onto its accumulator is a [flat_map]. *)
Lemma fold_left_append {A B : Type} (step : list B -> A -> list B) (g : A -> list B) :
  (forall acc x, step acc x = (acc ++ g x)%list) ->
  forall l init, fold_left step l init = (init ++ flat_map g l)%list.
Proof.
  intros Hstep l. induction l as [|x l IH]; intros init; simpl.
  - now rewrite app_nil_r.
  - now rewrite IH, Hstep, <- app_assoc.
Qed.

Lemma _validateArgumentType_spec (argDef : ICommandArgument) (value : Scalar) :
  _validateArgumentType argDef value
  = if conformsSpec (arg_type argDef) value then None
    else Some (typeMessage (arg_name argDef) (arg_type argDef)).
Proof.
  unfold _validateArgumentType, typeMessage.
  destruct (arg_type argDef), value as [s|n|b]; simpl; try reflexivity.
  - destruct (isNaN (StringToNumber s)); reflexivity.
  - destruct b; reflexivity.
  - destruct (s =? "true")%string; simpl; [reflexivity|].
    destruct (s =? "false")%string; reflexivity.
Qed.

Lemma find_by_name (l : list ICommandArgument) (k : string) (a : ICommandArgument) :
  find (fun a => (arg_name a =? k)%string) l = Some a ->
  In a l /\ arg_name a = k.
Proof.
  intros H. apply find_some in H. destruct H as [Hin Heq].
  split; [assumption | now apply String.eqb_eq].
Qed.

Lemma validateParameters_spec (command : ICommandLineEntry)
  (params : ICommandExecutionParams) :
  validateParameters command params
  = (requiredErrorsSpec command params ++ typeErrorsSpec command params)%list.
Proof.
  unfold validateParameters, requiredErrorsSpec, typeErrorsSpec, Object_entries.
  rewrite (fold_left_append _
    (fun arg => if arg_required arg && negb (hasProperty params (arg_name arg))
                then [missingMessage (arg_name arg)] else [])).
  2:{ intros acc arg. unfold push, missingMessage.
      destruct (arg_required arg && negb (hasProperty params (arg_name arg)));
        [reflexivity | now rewrite app_nil_r]. }
  simpl.
  apply fold_left_append.
  intros acc [k v]. simpl.
  destruct (find (fun a => (arg_name a =? k)%string) (cmd_arguments command))
    as [argDef|] eqn:Hfind; [|now rewrite app_nil_r].
  apply find_by_name in Hfind. destruct Hfind as [_ Hname].
  rewrite _validateArgumentType_spec, Hname.
  destruct (conformsSpec (arg_type argDef) v); [now rewrite app_nil_r|].
  rewrite typeMessage_truthy. reflexivity.
Qed.

Lemma resolveValue_contribution (params : ICommandExecutionParams)
  (argDef : ICommandArgument) :
  contributionSpec params argDef
  = match resolveValue params argDef with
    | Some v => ["--" ++ arg_name argDef; String_ v]
    | None => []
    end.
Proof.
  unfold contributionSpec, resolveValue.
  destruct (getProperty params (arg_name argDef)), (arg_defaultValue argDef); reflexivity.
Qed.

Lemma _buildCommandArguments_spec (command : ICommandLineEntry)
  (params : ICommandExecutionParams) :
  _buildCommandArguments command params
  = flat_map (contributionSpec params) (cmd_arguments command).
Proof.
  unfold _buildCommandArguments.
  rewrite (fold_left_append _ (contributionSpec params)); [reflexivity|].
  intros acc argDef. rewrite resolveValue_contribution. unfold push.
  destruct (resolveValue params argDef); [|now rewrite app_nil_r].
  now rewrite <- app_assoc.
Qed.

End Loops.

(* ================================================================== *)
(** ** The parameter object *)
(* ================================================================== *)

Section Properties.



Lemma getProperty_In (params : ICommandExecutionParams) (k : string) (v : Scalar) :
  NoDup (map fst params) -> In (k, v) params -> getProperty params k = Some v.
Proof.
  unfold getProperty.
  induction params as [|[k' v'] params IH]; simpl; intros Hnd Hin; [contradiction|].
  inversion Hnd as [|? ? Hnotin Hnd']; subst.
  destruct Hin as [Heq | Hin].
  - injection Heq as -> ->. now rewrite String.eqb_refl.
  - destruct (String.eqb_spec k' k) as [->|Hne].
    + exfalso. apply Hnotin. apply in_map_iff. now exists (k, v).
    + auto.
Qed.

Lemma getProperty_Some_In (params : ICommandExecutionParams) (k : string) (v : Scalar) :
  getProperty params k = Some v -> In (k, v) params.
Proof.
  unfold getProperty. intros H.
  destruct (find (fun entry => (fst entry =? k)%string) params) as [[k' v']|] eqn:Hf;
    [|discriminate].
  simpl in H. injection H as ->.
  apply find_some in Hf. destruct Hf as [Hin Heq].
  simpl in Heq. apply String.eqb_eq in Heq. now subst k'.
Qed.

(** Reading a property does not depend on the order of the others. *)
Lemma getProperty_Permutation (p p' : ICommandExecutionParams) (k : string) :
  NoDup (map fst p) -> Permutation p p' -> getProperty p k = getProperty p' k.
Proof.
  intros Hnd Hperm.
  assert (Hnd' : NoDup (map fst p')).
  { eapply Permutation_NoDup; [|exact Hnd]. now apply Permutation_map. }
  destruct (getProperty p k) as [v|] eqn:Hp.
  - symmetry. apply getProperty_In; [assumption|].
    eapply Permutation_in; [exact Hperm|]. now apply getProperty_Some_In.
  - destruct (getProperty p' k) as [v'|] eqn:Hp'; [|reflexivity].
    apply getProperty_Some_In in Hp'.
    apply Permutation_sym in Hperm.
    apply (Permutation_in _ Hperm) in Hp'.
    apply (getProperty_In _ _ _ Hnd) in Hp'. congruence.
Qed.

Lemma hasProperty_deleteProperty (params : ICommandExecutionParams) (k name : string) :
  name <> k -> hasProperty (deleteProperty k params) name = hasProperty params name.
Proof.
  intros Hne. unfold hasProperty, deleteProperty.
  induction params as [|[k' v'] params IH]; simpl; [reflexivity|].
  destruct (String.eqb_spec k' k) as [->|Hk]; simpl.
  - apply String.eqb_neq in Hne. rewrite String.eqb_sym, Hne. exact IH.
  - now rewrite IH.
Qed.

Lemma getProperty_deleteProperty (params : ICommandExecutionParams) (k name : string) :
  name <> k -> getProperty (deleteProperty k params) name = getProperty params name.
Proof.
  intros Hne. unfold getProperty, deleteProperty.
  induction params as [|[k' v'] params IH]; simpl; [reflexivity|].
  destruct (String.eqb_spec k' k) as [->|Hk]; simpl.
  - apply String.eqb_neq in Hne. rewrite String.eqb_sym, Hne. exact IH.
  - destruct (k' =? name)%string; [reflexivity | exact IH].
Qed.

End Properties.

(* ================================================================== *)
(** ** Which messages the validator returns *)
(* ================================================================== *)

Section ValidatorMessages.

Variable command : ICommandLineEntry.
Variable params : ICommandExecutionParams.

Lemma In_requiredErrorsSpec (message : string) :
  In message (requiredErrorsSpec command params) <->
  exists arg, In arg (cmd_arguments command) /\ arg_required arg = true /\
              hasProperty params (arg_name arg) = false /\
              message = missingMessage (arg_name arg).
Proof.
  unfold requiredErrorsSpec. rewrite in_flat_map. split.
  - intros [arg [Hin Hm]].
    destruct (arg_required arg) eqn:Hr, (hasProperty params (arg_name arg)) eqn:Hh;
      simpl in Hm; try contradiction.
    destruct Hm as [<-|[]]. exists arg. auto.
  - intros [arg [Hin [Hr [Hh ->]]]]. exists arg. split; [assumption|].
    rewrite Hr, Hh. simpl. auto.
Qed.

Lemma In_typeErrorsSpec (message : string) :
  In message (typeErrorsSpec command params) <->
  exists k v argDef,
    In (k, v) params /\
    find (fun a => (arg_name a =? k)%string) (cmd_arguments command) = Some argDef /\
    conformsSpec (arg_type argDef) v = false /\
    message = typeMessage k (arg_type argDef).
Proof.
  unfold typeErrorsSpec. rewrite in_flat_map. split.
  - intros [[k v] [Hin Hm]]. simpl in Hm.
    destruct (find (fun a => (arg_name a =? k)%string) (cmd_arguments command))
      as [argDef|] eqn:Hf; [|contradiction].
    destruct (conformsSpec (arg_type argDef) v) eqn:Hc; [contradiction|].
    destruct Hm as [<-|[]]. exists k, v, argDef. auto.
  - intros [k [v [argDef [Hin [Hf [Hc ->]]]]]]. exists (k, v). split; [assumption|].
    simpl. rewrite Hf, Hc. simpl. auto.
Qed.

(** The missing-argument message for [name] is returned exactly when some
    required declaration of that name finds no parameter. *)
Lemma In_missingMessage (name : string) :
  In (missingMessage name) (validateParameters command params) <->
  exists arg, In arg (cmd_arguments command) /\ arg_name arg = name /\
              arg_required arg = true /\ hasProperty params name = false.
Proof.
  rewrite validateParameters_spec, in_app_iff, In_requiredErrorsSpec, In_typeErrorsSpec.
  split.
  - intros [[arg [Hin [Hr [Hh Hm]]]] | [k [v [argDef [_ [_ [_ Hm]]]]]]].
    + apply missingMessage_inj in Hm. subst name. exists arg. auto.
    + exfalso. exact (missingMessage_not_typeMessage _ _ _ Hm).
  - intros [arg [Hin [<- [Hr Hh]]]]. left. exists arg. auto.
Qed.

(** The type message for [name] is returned exactly when the parameter
    [name] is supplied, has a declaration, and does not conform to it. *)
Lemma In_typeMessage (name : string) (t : ArgumentType) :
  In (typeMessage name t) (validateParameters command params) <->
  exists v argDef,
    In (name, v) params /\
    find (fun a => (arg_name a =? name)%string) (cmd_arguments command) = Some argDef /\
    arg_type argDef = t /\ conformsSpec t v = false.
Proof.
  rewrite validateParameters_spec, in_app_iff, In_requiredErrorsSpec, In_typeErrorsSpec.
  split.
  - intros [[arg [_ [_ [_ Hm]]]] | [k [v [argDef [Hin [Hf [Hc Hm]]]]]]].
    + exfalso. symmetry in Hm. exact (missingMessage_not_typeMessage _ _ _ Hm).
    + apply typeMessage_inj in Hm. destruct Hm as [-> ->].
      exists v, argDef. auto.
  - intros [v [argDef [Hin [Hf [<- Hc]]]]]. right. exists name, v, argDef. auto.
Qed.

End ValidatorMessages.

(* ================================================================== *)
(** ** The executor on the scenarios of the specification *)
(* ================================================================== *)

Section Scenarios.

Import Samples.

Example echo_vector :
  _buildCommandArguments echoTest [("message", VString "hello")] = ["--message"; "hello"].
Proof. reflexivity. Qed.

Example echo_run :
  executeCommand (spawnEcho 0) echoTest [("message", VString "hello")]
  = Normal {| success := true;
              stdout := "--message hello" ++ String (ascii_of_nat 10) "";
              stderr := ""; exitCode := 0 |}.
Proof. reflexivity. Qed.

Example echo_missing :
  validateParameters echoTest [] = ["Required argument 'message' is missing"].
Proof. reflexivity. Qed.

Example listing_line :
  commandLine listing [("verbose", VBoolean true); ("message", VString "a b")]
  = ("ls", ["-l"; "--message"; "a b"; "--count"; "10"; "--verbose"; "true"; "--level"; "3"]).
Proof. vm_compute. reflexivity. Qed.

Example number_from_string_accepted :
  validateParameters listing
    [("message", VString "m"); ("level", VString "42"); ("count", VString "4x")]
  = ["Argument 'count' must be a number"]
  /\ _buildCommandArguments listing [("message", VString "m"); ("level", VString "42")]
     = ["--message"; "m"; "--count"; "10"; "--level"; "42"].
Proof. vm_compute. split; reflexivity. Qed.

Example number_rendering :
  map (fun s => NumberToString (StringToNumber s))
    ["10"; "0.1"; "1e21"; " 42 "; "0x1F"; "abc"; "-12.50"; "1e-7"; ""; "5e-324"; "1e400"]
  = ["10"; "0.1"; "1e+21"; "42"; "31"; "NaN"; "-12.5"; "1e-7"; "0"; "5e-324"; "Infinity"].
Proof. vm_compute. reflexivity. Qed.

Example split_spaces :
  split_space "git  log -1" = ["git"; ""; "log"; "-1"] /\ split_space "" = [""].
Proof. split; reflexivity. Qed.

End Scenarios.

(* ================================================================== *)
(** ** Shared consequences *)
(* ================================================================== *)

Section Consequences.

Variable command : ICommandLineEntry.
Variable params : ICommandExecutionParams.

(** A parameter object holds one value per name. *)
Lemma entry_value_unique (k : string) (v v' : Scalar) :
  NoDup (map fst params) -> In (k, v) params -> In (k, v') params -> v = v'.
Proof.
  intros Hnd H H'.
  apply (getProperty_In _ _ _ Hnd) in H.
  apply (getProperty_In _ _ _ Hnd) in H'. congruence.
Qed.

(** The type message about a supplied, declared parameter. *)
Lemma typeMessage_of_entry (k : string) (v : Scalar) (argDef : ICommandArgument) :
  NoDup (map fst params) ->
  In (k, v) params ->
  find (fun a => (arg_name a =? k)%string) (cmd_arguments command) = Some argDef ->
  forall t, In (typeMessage k t) (validateParameters command params) <->
            t = arg_type argDef /\ conformsSpec (arg_type argDef) v = false.
Proof.
  intros Hnd Hin Hfind t. rewrite In_typeMessage. split.
  - intros [v' [argDef' [Hin' [Hfind' [Ht Hc]]]]].
    rewrite Hfind in Hfind'. injection Hfind' as <-.
    rewrite (entry_value_unique k v v' Hnd Hin Hin'). subst t. auto.
  - intros [-> Hc]. exists v, argDef. auto.
Qed.

(** A declared argument's contribution sits in the vector as a block. *)
Lemma contribution_in_vector (argDef : ICommandArgument) :
  In argDef (cmd_arguments command) ->
  exists before after,
    _buildCommandArguments command params
    = (before ++ contributionSpec params argDef ++ after)%list.
Proof.
  intros Hin. rewrite _buildCommandArguments_spec.
  apply in_split in Hin. destruct Hin as [l1 [l2 ->]].
  exists (flat_map (contributionSpec params) l1), (flat_map (contributionSpec params) l2).
  now rewrite flat_map_app.
Qed.

(** Every even position of the vector holds the flag of a declared
    argument. *)
Lemma flag_positions (i : nat) (token : string) :
  nth_error (_buildCommandArguments command params) (2 * i) = Some token ->
  exists argDef, In argDef (cmd_arguments command) /\ token = "--" ++ arg_name argDef.
Proof.
  rewrite _buildCommandArguments_spec.
  generalize (cmd_arguments command) as l.
  intros l. revert i. induction l as [|a l IH]; intros i; simpl flat_map.
  - destruct (2 * i)%nat; simpl; discriminate.
  - rewrite resolveValue_contribution.
    destruct (resolveValue params a) as [v|].
    + destruct i as [|i].
      * simpl. intros H. injection H as <-. exists a. auto.
      * replace (2 * S i)%nat with (S (S (2 * i))) by lia. simpl.
        intros H. apply IH in H. destruct H as [b [Hb ->]]. exists b. auto.
    + simpl. intros H. apply IH in H. destruct H as [b [Hb ->]]. exists b. auto.
Qed.

End Consequences.

(* ================================================================== *)
(** ** Parameter validation *)
(* ================================================================== *)





(** C7. For an argument declared with type boolean, [validateParameters]
    accepts a supplied value that is a boolean or one of the strings "true"
    and "false" (no message about that argument is returned), and rejects
    every other string with "Argument '<name>' must be a boolean". *)
Theorem boolean_argument_validation
  (command : ICommandLineEntry) (params : ICommandExecutionParams)
  (k : string) (v : Scalar) (argDef : ICommandArgument) :
  NoDup (map fst params) ->
  In (k, v) params ->
  find (fun a => (arg_name a =? k)%string) (cmd_arguments command) = Some argDef ->
  arg_type argDef = TBoolean ->
  ((exists b, v = VBoolean b) \/ v = VString "true" \/ v = VString "false" ->
   _validateArgumentType argDef v = None
   /\ forall t, ~ In (typeMessage k t) (validateParameters command params))
  /\
  (forall s, v = VString s -> s <> "true" -> s <> "false" ->
   _validateArgumentType argDef v = Some ("Argument '" ++ k ++ "' must be a boolean")
   /\ In ("Argument '" ++ k ++ "' must be a boolean") (validateParameters command params)).
Proof.
  intros Hnd Hin Hfind Hty.
  pose proof (typeMessage_of_entry command params k v argDef Hnd Hin Hfind) as Hmsg.
  destruct (find_by_name _ _ _ Hfind) as [_ Hname].
  split.
  - intros Hv.
    assert (Hc : conformsSpec (arg_type argDef) v = true).
    { rewrite Hty. destruct Hv as [[b ->] | [-> | ->]]; reflexivity. }
    split.
    + now rewrite _validateArgumentType_spec, Hc.
    + intros t H. apply Hmsg in H. destruct H as [_ H]. congruence.
  - intros s -> Htrue Hfalse.
    assert (Hc : conformsSpec (arg_type argDef) (VString s) = false).
    { rewrite Hty. simpl.
      apply String.eqb_neq in Htrue. apply String.eqb_neq in Hfalse.
      now rewrite Htrue, Hfalse. }
    split.
    + now rewrite _validateArgumentType_spec, Hc, Hname, Hty.
    + apply (Hmsg TBoolean). auto.
Qed.

Lemma boolean_argument_validation_witness :
  In "Argument 'verbose' must be a boolean"
     (validateParameters Samples.listing [("verbose", VString "yes")]).
Proof.
  assert (Hnd : NoDup (map fst [("verbose", VString "yes")])).
  { simpl. repeat constructor. simpl. tauto. }
  assert (Hin : In ("verbose", VString "yes") [("verbose", VString "yes")]).
  { simpl. auto. }
  destruct (boolean_argument_validation Samples.listing [("verbose", VString "yes")]
              "verbose" (VString "yes") Samples.verboseArg Hnd Hin eq_refl eq_refl)
    as [_ Hreject].
  destruct (Hreject "yes" eq_refl) as [_ H]; [discriminate | discriminate | exact H].
Defined.

(** C10. For an argument declared with type number, [validateParameters]
    accepts every boolean and the empty string, because their numeric
    coercions 1, 0 and 0 are not not-a-number; a supplied value is rejected
    only if it is not a number and its numeric coercion is not-a-number. *)
Theorem number_argument_coercion
  (command : ICommandLineEntry) (params : ICommandExecutionParams)
  (k : string) (v : Scalar) (argDef : ICommandArgument) :
  NoDup (map fst params) ->
  In (k, v) params ->
  find (fun a => (arg_name a =? k)%string) (cmd_arguments command) = Some argDef ->
  arg_type argDef = TNumber ->
  ((exists b, v = VBoolean b) \/ v = VString "" ->
   _validateArgumentType argDef v = None
   /\ forall t, ~ In (typeMessage k t) (validateParameters command params))
  /\
  (In ("Argument '" ++ k ++ "' must be a number") (validateParameters command params) <->
   typeof v <> "number" /\ isNaN (Number_ v) = true)
  /\
  (Number_ (VBoolean true) = ofZ 1 /\ Number_ (VBoolean false) = ofZ 0
   /\ Number_ (VString "") = ofZ 0
   /\ isNaN (ofZ 1) = false /\ isNaN (ofZ 0) = false).
Proof.
  intros Hnd Hin Hfind Hty.
  pose proof (typeMessage_of_entry command params k v argDef Hnd Hin Hfind) as Hmsg.
  split; [|split].
  - intros Hv.
    assert (Hc : conformsSpec (arg_type argDef) v = true).
    { rewrite Hty. destruct Hv as [[[|] ->] | ->]; reflexivity. }
    split.
    + now rewrite _validateArgumentType_spec, Hc.
    + intros t H. apply Hmsg in H. destruct H as [_ H]. congruence.
  - change ("Argument '" ++ k ++ "' must be a number") with (typeMessage k TNumber).
    rewrite Hmsg, Hty. split.
    + intros [_ Hc]. destruct v as [s|n|b]; simpl in Hc |- *.
      * split; [discriminate | now apply negb_false_iff].
      * discriminate.
      * split; [discriminate | now apply negb_false_iff].
    + intros [Hnot Hnan]. split; [reflexivity|].
      destruct v as [s|n|b]; simpl in *.
      * now rewrite Hnan.
      * now contradiction Hnot.
      * now rewrite Hnan.
  - repeat split; reflexivity.
Qed.

Lemma number_argument_coercion_witness :
  _validateArgumentType Samples.countArg (VBoolean true) = None
  /\ ~ In "Argument 'count' must be a number"
          (validateParameters Samples.listing
             [("count", VBoolean true); ("level", VString "")]).
Proof.
  assert (Hnd : NoDup (map fst [("count", VBoolean true); ("level", VString "")])).
  { simpl. repeat constructor; simpl; intuition discriminate. }
  assert (Hin : In ("count", VBoolean true)
                   [("count", VBoolean true); ("level", VString "")]).
  { simpl. auto. }
  destruct (number_argument_coercion Samples.listing
              [("count", VBoolean true); ("level", VString "")]
              "count" (VBoolean true) Samples.countArg Hnd Hin eq_refl eq_refl)
    as [Haccept _].
  destruct Haccept as [Hnone Hmsg]; [left; exists true; reflexivity|].
  split; [exact Hnone | exact (Hmsg TNumber)].
Defined.



(** C3. A key of the parameter object that matches no declared argument name
    produces no validation error ([validateParameters] returns what it
    returns without that key, and no message names the key), and the argument
    vector is built as if the key were not there: no flag position of the
    vector holds a flag for it. *)
Theorem undeclared_parameter_not_forwarded
  (command : ICommandLineEntry) (params : ICommandExecutionParams) (k : string) :
  (forall arg, In arg (cmd_arguments command) -> arg_name arg <> k) ->
  validateParameters command params = validateParameters command (deleteProperty k params)
  /\ ~ In (missingMessage k) (validateParameters command params)
  /\ (forall t, ~ In (typeMessage k t) (validateParameters command params))
  /\ _buildCommandArguments command params
     = _buildCommandArguments command (deleteProperty k params)
  /\ (forall i, nth_error (_buildCommandArguments command params) (2 * i)
                <> Some ("--" ++ k))
  /\ forall spawnSync,
       executeCommand spawnSync command params
       = executeCommand spawnSync command (deleteProperty k params).
Proof.
  intros Hundeclared.
  assert (Hfind : find (fun a => (arg_name a =? k)%string) (cmd_arguments command) = None).
  { destruct (find _ _) as [a|] eqn:Hf; [|reflexivity].
    apply find_by_name in Hf. destruct Hf as [Hin Hname].
    exfalso. exact (Hundeclared a Hin Hname). }
  repeat split.
  - rewrite !validateParameters_spec. f_equal.
    + unfold requiredErrorsSpec.
      rewrite !flat_map_concat_map. f_equal. apply map_ext_in.
      intros a Ha. now rewrite hasProperty_deleteProperty by (apply Hundeclared, Ha).
    + unfold typeErrorsSpec, deleteProperty.
      induction params as [|[k' v'] p IH]; simpl; [reflexivity|].
      destruct (String.eqb_spec k' k) as [->|Hne]; simpl.
      * now rewrite Hfind.
      * now rewrite IH.
  - intros H. apply In_missingMessage in H. destruct H as [a [Hin [Hname _]]].
    exact (Hundeclared a Hin Hname).
  - intros t H. apply In_typeMessage in H.
    destruct H as [v [argDef [_ [Hf _]]]]. congruence.
  - rewrite !_buildCommandArguments_spec.
    rewrite !flat_map_concat_map. f_equal. apply map_ext_in.
    intros a Ha. unfold contributionSpec.
    now rewrite getProperty_deleteProperty by (apply Hundeclared, Ha).
  - intros i H. apply flag_positions in H. destruct H as [a [Hin Heq]].
    apply append_inv_head in Heq. symmetry in Heq.
    exact (Hundeclared a Hin Heq).
  - intros spawnSync. unfold executeCommand, commandLine.
    rewrite !_buildCommandArguments_spec.
    replace (flat_map (contributionSpec (deleteProperty k params)) (cmd_arguments command))
      with (flat_map (contributionSpec params) (cmd_arguments command)); [reflexivity|].
    rewrite !flat_map_concat_map. f_equal. apply map_ext_in.
    intros a Ha. unfold contributionSpec.
    now rewrite getProperty_deleteProperty by (apply Hundeclared, Ha).
Qed.

Lemma undeclared_parameter_not_forwarded_witness :
  validateParameters Samples.echoTest
    [("message", VString "hi"); ("rm", VString "-rf")]
  = validateParameters Samples.echoTest [("message", VString "hi")]
  /\ _buildCommandArguments Samples.echoTest
       [("message", VString "hi"); ("rm", VString "-rf")]
     = ["--message"; "hi"].
Proof.
  destruct (undeclared_parameter_not_forwarded Samples.echoTest
              [("message", VString "hi"); ("rm", VString "-rf")] "rm")
    as [Hv [_ [_ [Hb _]]]].
  - simpl. intros arg [<- | []]. discriminate.
  - split; [exact Hv | exact Hb].
Defined.

(* ================================================================== *)
(** ** The argument vector *)
(* ================================================================== *)

(** C5. The argument vector lists the arguments in declaration order: it is
    the concatenation, along [command.arguments], of one block per declared
    argument, empty when no value is resolved and otherwise exactly the two
    consecutive elements "--<name>" and the string form of the value; the
    order in which the parameter object lists its properties plays no part. *)
Theorem argument_vector_declaration_order
  (command : ICommandLineEntry) (params : ICommandExecutionParams) :
  (exists chunks,
     _buildCommandArguments command params = List.concat chunks
     /\ Forall2
          (fun argDef chunk =>
             (resolveValue params argDef = None /\ chunk = [])
             \/ exists v, resolveValue params argDef = Some v
                          /\ chunk = ["--" ++ arg_name argDef; String_ v])
          (cmd_arguments command) chunks)
  /\
  (forall params',
     NoDup (map fst params) -> Permutation params params' ->
     _buildCommandArguments command params' = _buildCommandArguments command params).
Proof.
  split.
  - exists (map (contributionSpec params) (cmd_arguments command)). split.
    + now rewrite _buildCommandArguments_spec, flat_map_concat_map.
    + induction (cmd_arguments command) as [|a l IH]; simpl; constructor; [|exact IH].
      rewrite resolveValue_contribution.
      destruct (resolveValue params a) as [v|]; [right; exists v | left]; auto.
  - intros params' Hnd Hperm. rewrite !_buildCommandArguments_spec.
    rewrite !flat_map_concat_map. f_equal. apply map_ext.
    intros a. unfold contributionSpec.
    now rewrite (getProperty_Permutation params params' (arg_name a) Hnd Hperm).
Qed.

Lemma argument_vector_declaration_order_witness :
  _buildCommandArguments Samples.listing
    [("message", VString "m"); ("verbose", VBoolean false)]
  = _buildCommandArguments Samples.listing
      [("verbose", VBoolean false); ("message", VString "m")].
Proof.
  destruct (argument_vector_declaration_order Samples.listing
              [("verbose", VBoolean false); ("message", VString "m")]) as [_ Horder].
  apply Horder.
  - simpl. repeat constructor; simpl; intuition discriminate.
  - apply perm_swap.
Defined.



(* ================================================================== *)
(** ** Running the command *)
(* ================================================================== *)

(** When the child reports a numeric exit status, or cannot be started,
    [success] says whether [exitCode] is 0. *)
Lemma success_iff_exitCode_numeric
  (spawnSync : string -> list string -> Completion SpawnSyncReturns)
  (command : ICommandLineEntry) (params : ICommandExecutionParams)
  (r : ICommandExecutionResult) :
  (forall result,
     spawnSync (fst (commandLine command params)) (snd (commandLine command params))
     = Normal result -> spawn_status result <> None) ->
  executeCommand spawnSync command params = Normal r ->
  (success r = true <-> exitCode r = 0%Z).
Proof.
  unfold executeCommand. intros Hstatus.
  destruct (commandLine command params) as [executable allArgs]. simpl in Hstatus.
  destruct (spawnSync executable allArgs) as [result|e] eqn:Hspawn; simpl.
  - specialize (Hstatus result eq_refl).
    destruct (spawn_status result) as [code|]; [|contradiction].
    intros H. injection H as <-. simpl. apply Z.eqb_eq.
  - intros H. injection H as <-. simpl. split; discriminate.
Qed.

(** C1, at the input where it fails. A child that is ended by a signal has
    no exit status ([status] is [null]): the result then has [success] false
    and [exitCode] 0. *)
Theorem null_status_reports_failure_with_exit_code_0
  (command : ICommandLineEntry) (params : ICommandExecutionParams)
  (out err : option string) :
  executeCommand (Samples.spawnKilled out err) command params
  = Normal {| success := false; stdout := orEmpty out; stderr := orEmpty err;
              exitCode := 0 |}.
Proof.
  unfold executeCommand.
  destruct (commandLine command params) as [executable allArgs].
  reflexivity.
Qed.



(* ================================================================== *)
(** ** Further properties of the executor *)
(* ================================================================== *)

(** X1. Whatever the child does, a result with [success] true has
    [exitCode] 0, and a result with a non-zero [exitCode] has [success]
    false. *)
Theorem success_implies_exit_code_zero
  (spawnSync : string -> list string -> Completion SpawnSyncReturns)
  (command : ICommandLineEntry) (params : ICommandExecutionParams)
  (r : ICommandExecutionResult) :
  executeCommand spawnSync command params = Normal r ->
  (success r = true -> exitCode r = 0%Z)
  /\ (exitCode r <> 0%Z -> success r = false).
Proof.
  unfold executeCommand.
  destruct (commandLine command params) as [executable allArgs].
  destruct (spawnSync executable allArgs) as [result|e]; simpl;
    intros H; injection H as <-; simpl.
  - destruct (spawn_status result) as [code|]; split.
    + apply Z.eqb_eq.
    + intros Hne. now apply Z.eqb_neq.
    + discriminate.
    + reflexivity.
  - split; [discriminate | reflexivity].
Qed.

Lemma success_implies_exit_code_zero_witness :
  success {| success := false; stdout := "--message x" ++ String (ascii_of_nat 10) "";
             stderr := ""; exitCode := 2 |} = false
  /\ executeCommand (Samples.spawnEcho 2) Samples.echoTest [("message", VString "x")]
     = Normal {| success := false; stdout := "--message x" ++ String (ascii_of_nat 10) "";
                 stderr := ""; exitCode := 2 |}.
Proof.
  split; [|reflexivity].
  apply (success_implies_exit_code_zero (Samples.spawnEcho 2) Samples.echoTest
           [("message", VString "x")]).
  - reflexivity.
  - simpl. discriminate.
Defined.

(** X2. When the child reports a numeric exit status, or cannot be started,
    [success] is true exactly when [exitCode] is 0. *)
Theorem success_iff_exit_code_with_status
  (spawnSync : string -> list string -> Completion SpawnSyncReturns)
  (command : ICommandLineEntry) (params : ICommandExecutionParams)
  (r : ICommandExecutionResult) :
  (forall result,
     spawnSync (fst (commandLine command params)) (snd (commandLine command params))
     = Normal result -> exists code, spawn_status result = Some code) ->
  executeCommand spawnSync command params = Normal r ->
  (success r = true <-> exitCode r = 0%Z).
Proof.
  intros Hstatus. unfold executeCommand.
  destruct (commandLine command params) as [executable allArgs]. simpl in Hstatus.
  destruct (spawnSync executable allArgs) as [result|e]; simpl;
    intros H; injection H as <-; simpl.
  - destruct (Hstatus result eq_refl) as [code ->]. apply Z.eqb_eq.
  - split; discriminate.
Qed.

Lemma success_iff_exit_code_with_status_witness :
  exitCode {| success := true; stdout := "--message x" ++ String (ascii_of_nat 10) "";
              stderr := ""; exitCode := 0 |} = 0%Z
  /\ executeCommand (Samples.spawnEcho 0) Samples.echoTest [("message", VString "x")]
     = Normal {| success := true; stdout := "--message x" ++ String (ascii_of_nat 10) "";
                 stderr := ""; exitCode := 0 |}.
Proof.
  split; [|reflexivity].
  apply (success_iff_exit_code_with_status (Samples.spawnEcho 0) Samples.echoTest
           [("message", VString "x")]).
  - intros result H. injection H as <-. exists 0%Z. reflexivity.
  - reflexivity.
  - reflexivity.
Defined.

(** X3. The captured streams are returned as they are: [stdout] and
    [stderr] of the result are the child's, and an absent stream becomes the
    empty string. *)
Theorem captured_streams_returned
  (spawnSync : string -> list string -> Completion SpawnSyncReturns)
  (command : ICommandLineEntry) (params : ICommandExecutionParams)
  (result : SpawnSyncReturns) :
  spawnSync (fst (commandLine command params)) (snd (commandLine command params))
  = Normal result ->
  exists r,
    executeCommand spawnSync command params = Normal r
    /\ stdout r = match spawn_stdout result with Some s => s | None => "" end
    /\ stderr r = match spawn_stderr result with Some s => s | None => "" end.
Proof.
  unfold executeCommand.
  destruct (commandLine command params) as [executable allArgs]. simpl.
  intros ->. simpl. eexists. split; [reflexivity|]. simpl.
  assert (Hor : forall o, orEmpty o = match o with Some s => s | None => "" end).
  { intros [s|]; [|reflexivity]. unfold orEmpty, truthy.
    destruct (String.eqb_spec s ""); simpl; congruence. }
  now rewrite !Hor.
Qed.

Lemma captured_streams_returned_witness :
  exists r,
    executeCommand (Samples.spawnKilled (Some "partial") None) Samples.echoTest [] = Normal r
    /\ stdout r = "partial" /\ stderr r = "".
Proof.
  apply (captured_streams_returned (Samples.spawnKilled (Some "partial") None)
           Samples.echoTest []
           {| spawn_status := None; spawn_stdout := Some "partial"; spawn_stderr := None |}).
  reflexivity.
Defined.

Lemma concat_split_space (s : string) : String.concat " " (split_space s) = s.
Proof.
  induction s as [|c r IH]; [reflexivity|].
  simpl split_space.
  destruct (Ascii.eqb_spec c " ") as [->|Hc].
  - pose proof (split_space_nonempty r) as Hne.
    destruct (split_space r) as [|h t] eqn:Hs; [contradiction|].
    change (String.concat " " ("" :: h :: t)) with (" " ++ String.concat " " (h :: t)).
    now rewrite IH.
  - destruct (split_space r) as [|h t] eqn:Hs.
    + exfalso. exact (split_space_nonempty r Hs).
    + destruct t as [|h' t'].
      * simpl in IH |- *. now rewrite IH.
      * change (String.concat " " (String c h :: h' :: t'))
          with (String c (String.concat " " (h :: h' :: t'))).
        now rewrite IH.
Qed.

Lemma split_space_no_space (s token : string) :
  In token (split_space s) -> ~ In " "%char (list_ascii_of_string token).
Proof.
  revert token. induction s as [|c r IH]; intros token; simpl.
  - intros [<-|[]]. simpl. tauto.
  - destruct (Ascii.eqb_spec c " ") as [->|Hc].
    + intros [<-|Hin]; [simpl; tauto | now apply IH].
    + destruct (split_space r) as [|h t] eqn:Hs.
      * intros [<-|[]]. simpl. intros [H|[]]. now apply Hc.
      * intros [<-|Hin].
        -- simpl. intros [H|H]; [now apply Hc|].
           apply (IH h); [now left | assumption].
        -- apply IH. now right.
Qed.

(** X4. The command line handed to the child: the command string is cut at
    every single space, so joining the executable and the fixed arguments
    with spaces gives the command string back and none of them contains a
    space; the fixed arguments come first and the arguments built from the
    parameters follow them. *)
Theorem command_line_tokens
  (command : ICommandLineEntry) (params : ICommandExecutionParams) :
  exists baseArgs,
    snd (commandLine command params)
    = (baseArgs ++ _buildCommandArguments command params)%list
    /\ String.concat " " (fst (commandLine command params) :: baseArgs)
       = cmd_command command
    /\ Forall (fun token => ~ In " "%char (list_ascii_of_string token))
              (fst (commandLine command params) :: baseArgs).
Proof.
  unfold commandLine. simpl.
  pose proof (concat_split_space (cmd_command command)) as Hjoin.
  pose proof (split_space_no_space (cmd_command command)) as Hno.
  pose proof (split_space_nonempty (cmd_command command)) as Hne.
  destruct (split_space (cmd_command command)) as [|executable baseArgs];
    [contradiction|].
  exists baseArgs. simpl. repeat split; [exact Hjoin|].
  apply Forall_forall. exact Hno.
Qed.




(** X7. For an argument declared with type string only a string is
    accepted: a supplied number or boolean is rejected with
    "Argument '<name>' must be a string", and no string is ever rejected. *)
Theorem string_argument_validation
  (command : ICommandLineEntry) (params : ICommandExecutionParams)
  (k : string) (v : Scalar) (argDef : ICommandArgument) :
  NoDup (map fst params) ->
  In (k, v) params ->
  find (fun a => (arg_name a =? k)%string) (cmd_arguments command) = Some argDef ->
  arg_type argDef = TString ->
  (In ("Argument '" ++ k ++ "' must be a string") (validateParameters command params)
   <-> forall s, v <> VString s)
  /\ (_validateArgumentType argDef v = None <-> exists s, v = VString s).
Proof.
  intros Hnd Hin Hfind Hty.
  pose proof (typeMessage_of_entry command params k v argDef Hnd Hin Hfind TString) as Hmsg.
  split.
  - change ("Argument '" ++ k ++ "' must be a string") with (typeMessage k TString).
    rewrite Hmsg, Hty. split.
    + intros [_ Hc] s ->. discriminate Hc.
    + intros Hnot. split; [reflexivity|].
      destruct v as [s|n|b]; [exfalso; now apply (Hnot s) | reflexivity | reflexivity].
  - rewrite _validateArgumentType_spec, Hty. split.
    + destruct v as [s|n|b]; simpl; intros H; try discriminate H. now exists s.
    + intros [s ->]. reflexivity.
Qed.

Lemma string_argument_validation_witness :
  In "Argument 'message' must be a string"
     (validateParameters Samples.echoTest [("message", VNumber (ofZ 5))])
  /\ _validateArgumentType Samples.messageArg (VString "5") = None.
Proof.
  assert (Hnd : NoDup (map fst [("message", VNumber (ofZ 5))])).
  { simpl. repeat constructor. simpl. tauto. }
  assert (Hin : In ("message", VNumber (ofZ 5)) [("message", VNumber (ofZ 5))]).
  { simpl. auto. }
  destruct (string_argument_validation Samples.echoTest [("message", VNumber (ofZ 5))]
              "message" (VNumber (ofZ 5)) Samples.messageArg Hnd Hin eq_refl eq_refl)
    as [Hreject _].
  split; [|reflexivity].
  apply Hreject. intros s H. discriminate H.
Defined.

(** X8. The returned list has all missing-argument messages first, in
    declaration order, and then the type messages, in the order in which the
    parameter object lists the offending properties. *)
Theorem validation_errors_order
  (command : ICommandLineEntry) (params : ICommandExecutionParams) :
  validateParameters command params
  = (map (fun arg => missingMessage (arg_name arg))
         (filter (fun arg => arg_required arg && negb (hasProperty params (arg_name arg)))
                 (cmd_arguments command))
     ++ flat_map
          (fun entry =>
             match find (fun a => (arg_name a =? fst entry)%string)
                        (cmd_arguments command) with
             | Some argDef =>
                 if conformsSpec (arg_type argDef) (snd entry) then []
                 else ["Argument '" ++ fst entry ++ "' must be a "
                       ++ typeNameOf (arg_type argDef)]%string
             | None => []
             end)
          params)%list.
Proof.
  rewrite validateParameters_spec. f_equal.
  unfold requiredErrorsSpec.
  induction (cmd_arguments command) as [|a l IH]; [reflexivity|].
  simpl. rewrite IH.
  destruct (arg_required a && negb (hasProperty params (arg_name a))); reflexivity.
Qed.

(* ================================================================== *)
(** ** Numeric coercion of digit strings *)
(* ================================================================== *)

Section DigitStrings.

Import Builtins.
Local Open Scope Z_scope.

Lemma shr_1_nonneg (mrs : shr_record) : 0 <= shr_m mrs -> 0 <= shr_m (shr_1 mrs).
Proof.
  destruct mrs as [m r s]. simpl.
  destruct m as [|[p|p|]|[p|p|]]; simpl; lia.
Qed.

Lemma iter_shr_1_nonneg (n : positive) :
  forall mrs, 0 <= shr_m mrs -> 0 <= shr_m (iter_pos shr_1 n mrs).
Proof.
  induction n as [n IH|n IH|]; intros mrs H; simpl.
  - apply IH, IH, shr_1_nonneg, H.
  - apply IH, IH, H.
  - apply shr_1_nonneg, H.
Qed.

Lemma shr_fexp_nonneg (m e : Z) (l : location) :
  0 <= m -> 0 <= shr_m (fst (shr_fexp prec emax m e l)).
Proof.
  intros H. unfold shr_fexp, shr.
  assert (H0 : 0 <= shr_m (shr_record_of_loc m l)).
  { destruct l as [|[| |]]; simpl; exact H. }
  destruct (fexp prec emax (Zdigits2 m + e) - e) as [|n|n]; simpl;
    [exact H0 | now apply iter_shr_1_nonneg | exact H0].
Qed.

(** Rounding a non-negative quotient never yields not-a-number. *)
Lemma binary_round_aux_not_NaN (neg : bool) (m e : Z) (l : location) :
  0 <= m -> isNaN (binary_round_aux prec emax neg m e l) = false.
Proof.
  intros H. unfold binary_round_aux.
  pose proof (shr_fexp_nonneg m e l H) as H1.
  destruct (shr_fexp prec emax m e l) as [mrs' e']. simpl in H1.
  assert (H2 : 0 <= round_nearest_even (shr_m mrs') (loc_of_shr_record mrs')).
  { unfold round_nearest_even.
    destruct (loc_of_shr_record mrs') as [|[| |]]; try lia.
    destruct (Z.even (shr_m mrs')); lia. }
  pose proof (shr_fexp_nonneg _ e' loc_Exact H2) as H3.
  destruct (shr_fexp prec emax _ e' loc_Exact) as [mrs'' e'']. simpl in H3.
  destruct (shr_m mrs'') as [|q|q]; [reflexivity | | lia].
  destruct (e'' <=? emax - prec); reflexivity.
Qed.

Lemma roundRatio_not_NaN (neg : bool) (p d : Z) :
  0 <= p -> 0 < d -> isNaN (roundRatio neg p d) = false.
Proof.
  intros Hp Hd. unfold roundRatio.
  set (e := Zdigits2 p - Zdigits2 d - 56).
  set (num := if e <? 0 then Z.shiftl p (- e) else p).
  set (den := if e <? 0 then d else Z.shiftl d e).
  assert (Hnum : 0 <= num).
  { unfold num. destruct (e <? 0); [now apply Z.shiftl_nonneg | exact Hp]. }
  assert (Hden : 0 < den).
  { unfold den. destruct (Z.ltb_spec e 0); [exact Hd|].
    rewrite Z.shiftl_mul_pow2 by assumption.
    apply Z.mul_pos_pos; [exact Hd | now apply Z.pow_pos_nonneg]. }
  destruct (Z.div_eucl num den) as [q r] eqn:Hdiv.
  apply binary_round_aux_not_NaN.
  replace q with (num / den) by (unfold Z.div; now rewrite Hdiv).
  now apply Z.div_pos.
Qed.

Lemma digit_not_whitespace (c : ascii) :
  decimalDigitCode c -> isStrWhiteSpaceChar c = false.
Proof.
  unfold decimalDigitCode, isStrWhiteSpaceChar. intros H.
  destruct (Z.leb_spec 9 (Z.of_N (N_of_ascii c)));
    destruct (Z.leb_spec (Z.of_N (N_of_ascii c)) 13);
    destruct (Z.eqb_spec (Z.of_N (N_of_ascii c)) 32);
    destruct (Z.eqb_spec (Z.of_N (N_of_ascii c)) 160); simpl; try reflexivity; lia.
Qed.

Lemma digit_differs (c d : ascii) :
  decimalDigitCode c -> ~ decimalDigitCode d -> (c =? d)%char = false.
Proof.
  intros Hc Hd. destruct (Ascii.eqb_spec c d) as [->|]; [contradiction | reflexivity].
Qed.

Lemma digitOf_decimal (c : ascii) :
  decimalDigitCode c -> digitOf 10 c = Some (Z.of_N (N_of_ascii c) - 48).
Proof.
  unfold decimalDigitCode, digitOf. intros [H1 H2].
  destruct (Z.leb_spec 48 (Z.of_N (N_of_ascii c))); [|lia].
  destruct (Z.leb_spec (Z.of_N (N_of_ascii c)) 57); [|lia].
  simpl. destruct (Z.ltb_spec (Z.of_N (N_of_ascii c) - 48) 10); [reflexivity | lia].
Qed.

Lemma digitOf_radix_0 (c : ascii) : digitOf 0 c = None.
Proof.
  unfold digitOf.
  destruct (Z.leb_spec 48 (Z.of_N (N_of_ascii c)));
    destruct (Z.leb_spec (Z.of_N (N_of_ascii c)) 57); simpl;
    try (destruct (Z.ltb_spec (Z.of_N (N_of_ascii c) - 48) 0); [lia | reflexivity]);
    destruct (Z.leb_spec 97 (Z.of_N (N_of_ascii c)));
    destruct (Z.leb_spec (Z.of_N (N_of_ascii c)) 102); simpl;
    try (destruct (Z.ltb_spec (Z.of_N (N_of_ascii c) - 87) 0); [lia | reflexivity]);
    destruct (Z.leb_spec 65 (Z.of_N (N_of_ascii c)));
    destruct (Z.leb_spec (Z.of_N (N_of_ascii c)) 70); simpl;
    try (destruct (Z.ltb_spec (Z.of_N (N_of_ascii c) - 55) 0); [lia | reflexivity]);
    reflexivity.
Qed.

Lemma takeDigits_all_digits (s : string) :
  Forall decimalDigitCode (list_ascii_of_string s) ->
  forall acc count, 0 <= acc ->
  exists v, takeDigits 10 s acc count = (v, count + Z.of_nat (String.length s), EmptyString)
            /\ 0 <= v.
Proof.
  induction s as [|c r IH]; intros Hall acc count Hacc; simpl.
  - exists acc. split; [f_equal; f_equal; lia | exact Hacc].
  - simpl in Hall. inversion Hall as [|? ? Hc Hr]; subst.
    rewrite (digitOf_decimal c Hc).
    destruct (IH Hr (acc * 10 + (Z.of_N (N_of_ascii c) - 48)) (count + 1)) as [v [Hv Hv0]].
    { unfold decimalDigitCode in Hc. lia. }
    exists v. split; [|exact Hv0]. rewrite Hv. f_equal. f_equal. lia.
Qed.

Lemma trimEnd_digits (s : string) :
  Forall decimalDigitCode (list_ascii_of_string s) -> trimEnd s = s.
Proof.
  induction s as [|c r IH]; intros Hall; simpl; [reflexivity|].
  simpl in Hall. inversion Hall as [|? ? Hc Hr]; subst.
  rewrite (IH Hr). destruct r; [|reflexivity].
  now rewrite (digit_not_whitespace c Hc).
Qed.

Lemma parseNonDecimalIntegerLiteral_digits (s : string) :
  Forall decimalDigitCode (list_ascii_of_string s) ->
  parseNonDecimalIntegerLiteral s = None.
Proof.
  intros Hall.
  destruct s as [|c0 [|c r]].
  - reflexivity.
  - destruct c0 as [[] [] [] [] [] [] [] []]; reflexivity.
  - assert (Hc : decimalDigitCode c).
    { simpl in Hall. inversion Hall as [|? ? _ Hr]; subst.
      now inversion Hr. }
    assert (Hbody :
      (let radix := if (c =? "x")%char || (c =? "X")%char then 16
                    else if (c =? "o")%char || (c =? "O")%char then 8
                    else if (c =? "b")%char || (c =? "B")%char then 2
                    else 0 in
       let '(v, n, rest) := takeDigits radix r 0 0 in
       if (0 <? n) && (rest =? "")%string then Some v else @None Z) = None).
    { rewrite !(digit_differs c) by
        (try exact Hc; unfold decimalDigitCode; simpl; lia).
      simpl. destruct r as [|c' r']; simpl; [reflexivity|].
      now rewrite digitOf_radix_0. }
    destruct c0 as [[] [] [] [] [] [] [] []]; try reflexivity. exact Hbody.
Qed.

(** A non-empty string of decimal digits converts to a number that is not
    not-a-number. *)
Lemma StringToNumber_digits (s : string) :
  s <> EmptyString ->
  Forall decimalDigitCode (list_ascii_of_string s) ->
  isNaN (StringToNumber s) = false.
Proof.
  intros Hne Hall. unfold StringToNumber.
  destruct s as [|c0 r]; [contradiction|].
  assert (Hc0 : decimalDigitCode c0) by (simpl in Hall; now inversion Hall).
  assert (Htrim : trimEnd (trimStart (String c0 r)) = String c0 r).
  { simpl trimStart. rewrite (digit_not_whitespace c0 Hc0).
    now apply trimEnd_digits. }
  rewrite Htrim.
  rewrite (parseNonDecimalIntegerLiteral_digits _ Hall).
  rewrite !(digit_differs c0) by (try exact Hc0; unfold decimalDigitCode; simpl; lia).
  assert (Hinf : (String c0 r =? "Infinity")%string = false).
  { simpl. now rewrite (digit_differs c0 "I")
      by (try exact Hc0; unfold decimalDigitCode; simpl; lia). }
  rewrite Hinf. unfold parseStrUnsignedDecimalLiteral.
  destruct (takeDigits_all_digits (String c0 r) Hall 0 0 (Z.le_refl 0)) as [v [Hv Hv0]].
  rewrite Hv.
  assert (Hlen : (0 <? 0 + Z.of_nat (String.length (String c0 r))) = true).
  { apply Z.ltb_lt. simpl String.length. lia. }
  rewrite Hlen. simpl parseExponentPart. cbv iota beta.
  unfold roundDecimal. simpl (0 <? 0).  cbv iota.
  apply roundRatio_not_NaN; lia.
Qed.

End DigitStrings.

(** X9. A parameter given as a non-empty string of decimal digits, such as
    "42", is accepted for an argument declared with type number, and it is
    forwarded to the vector unchanged. *)
Theorem digit_string_accepted_as_number
  (command : ICommandLineEntry) (params : ICommandExecutionParams)
  (k s : string) (argDef : ICommandArgument) :
  NoDup (map fst params) ->
  In (k, VString s) params ->
  find (fun a => (arg_name a =? k)%string) (cmd_arguments command) = Some argDef ->
  arg_type argDef = TNumber ->
  s <> "" ->
  Forall Builtins.decimalDigitCode (list_ascii_of_string s) ->
  _validateArgumentType argDef (VString s) = None
  /\ (forall t, ~ In (typeMessage k t) (validateParameters command params))
  /\ exists before after,
       _buildCommandArguments command params
       = (before ++ [("--" ++ k)%string; s] ++ after)%list.
Proof.
  intros Hnd Hin Hfind Hty Hne Hdigits.
  assert (Hc : conformsSpec (arg_type argDef) (VString s) = true).
  { rewrite Hty. simpl. now rewrite (StringToNumber_digits s Hne Hdigits). }
  destruct (find_by_name _ _ _ Hfind) as [Hdecl Hname].
  split; [|split].
  - now rewrite _validateArgumentType_spec, Hc.
  - intros t H.
    apply (typeMessage_of_entry command params k (VString s) argDef Hnd Hin Hfind) in H.
    destruct H as [_ H]. congruence.
  - destruct (contribution_in_vector command params argDef Hdecl) as [before [after H]].
    exists before, after. rewrite H. unfold contributionSpec.
    rewrite Hname, (getProperty_In params k (VString s) Hnd Hin). reflexivity.
Qed.

Lemma digit_string_accepted_as_number_witness :
  _validateArgumentType Samples.levelArg (VString "42") = None
  /\ exists before after,
       _buildCommandArguments Samples.listing [("level", VString "42")]
       = (before ++ ["--level"; "42"] ++ after)%list.
Proof.
  assert (Hnd : NoDup (map fst [("level", VString "42")])).
  { simpl. repeat constructor. simpl. tauto. }
  assert (Hin : In ("level", VString "42") [("level", VString "42")]).
  { simpl. auto. }
  assert (Hdigits : Forall Builtins.decimalDigitCode (list_ascii_of_string "42")).
  { simpl. repeat constructor; unfold Builtins.decimalDigitCode; simpl; lia. }
  destruct (digit_string_accepted_as_number Samples.listing [("level", VString "42")]
              "level" "42" Samples.levelArg Hnd Hin eq_refl eq_refl) as [H1 [_ H3]].
  - discriminate.
  - exact Hdigits.
  - split; [exact H1 | exact H3].
Defined.

(* ================================================================== *)
(** ** Loading the configuration *)
(* ================================================================== *)

Section LoadingFacts.

Import Builtins Loading.

Lemma prefix_append (a b : string) : prefix a (a ++ b) = true.
Proof.
  induction a as [|c a IH]; simpl; [destruct b; reflexivity|].
  destruct (ascii_dec c c); [exact IH | contradiction].
Qed.

Lemma includes_of_prefix (s search : string) :
  prefix search s = true -> includes s search = true.
Proof.
  intros H. destruct s; unfold includes; fold includes; rewrite H; reflexivity.
Qed.

Lemma includes_append (a b : string) : includes (a ++ b) a = true.
Proof. apply includes_of_prefix, prefix_append. Qed.

(** The catch block of [validateConfig] recognises its own rejection. *)
Lemma rejection_recognised (detail : string) :
  isErrorIncluding (ErrorObject ("Configuration validation failed: " ++ detail))
                   "Configuration validation failed" = true.
Proof.
  exact (includes_append "Configuration validation failed" (": " ++ detail)).
Qed.

End LoadingFacts.

(** X10. With a readable schema that compiles, [validateConfig] returns the
    document itself, cast to a configuration, when the validator accepts it;
    when the validator rejects it, [validateConfig] throws an error whose
    message is "Configuration validation failed: " followed by the
    validator's errors, each rendered as "<instancePath>: <message>" and
    joined by ", ".  The rejection passes through the function's own catch
    block unchanged. *)
Theorem validateConfig_outcome
  {Json : Type} (w : Loading.World Json) (data schema : Json)
  (validate : Json -> Loading.AjvOutcome) :
  Loading.getSchema w = Normal schema ->
  Loading.ajv_compile w schema = Normal validate ->
  (Loading.isValid (validate data) = true ->
   Loading.validateConfig w data = Normal (Loading.asIConfig w data))
  /\
  (Loading.isValid (validate data) = false ->
   Loading.validateConfig w data
   = Throw (ErrorObject
              ("Configuration validation failed: "
               ++ Builtins.join ", "
                    (map (fun error =>
                            Loading.instancePath error ++ ": "
                            ++ Builtins.interpolate (Loading.ajv_message error))
                         (match Loading.ajv_errors (validate data) with
                          | Some errors => errors
                          | None => []
                          end))))).
Proof.
  intros Hschema Hcompile. unfold Loading.validateConfig.
  rewrite Hschema. cbn [bind]. rewrite Hcompile. cbn [bind].
  split; intros Hvalid; rewrite Hvalid; cbn [negb tryCatch]; [reflexivity|].
  now rewrite rejection_recognised.
Qed.

Lemma validateConfig_outcome_witness :
  Loading.validateConfig Worlds.sampleWorld None
  = Throw (ErrorObject
             "Configuration validation failed: : must have required property 'version', /commands: undefined")
  /\ Loading.validateConfig Worlds.sampleWorld (Some Worlds.sampleConfig)
     = Normal Worlds.sampleConfig.
Proof.
  destruct (validateConfig_outcome Worlds.sampleWorld None None
              (fun data =>
                 match data with
                 | Some _ => {| Loading.isValid := true; Loading.ajv_errors := None |}
                 | None =>
                     {| Loading.isValid := false;
                        Loading.ajv_errors :=
                          Some [{| Loading.instancePath := "";
                                   Loading.ajv_message :=
                                     Some "must have required property 'version'" |};
                                {| Loading.instancePath := "/commands";
                                   Loading.ajv_message := None |}] |}
                 end) eq_refl eq_refl) as [_ Hreject].
  destruct (validateConfig_outcome Worlds.sampleWorld (Some Worlds.sampleConfig) None
              (fun data =>
                 match data with
                 | Some _ => {| Loading.isValid := true; Loading.ajv_errors := None |}
                 | None =>
                     {| Loading.isValid := false;
                        Loading.ajv_errors :=
                          Some [{| Loading.instancePath := "";
                                   Loading.ajv_message :=
                                     Some "must have required property 'version'" |};
                                {| Loading.instancePath := "/commands";
                                   Loading.ajv_message := None |}] |}
                 end) eq_refl eq_refl) as [Haccept _].
  split.
  - exact (Hreject eq_refl).
  - exact (Haccept eq_refl).
Defined.

(** X11. Whatever goes wrong, [validateConfig] throws an [Error] object
    whose message either contains "Configuration validation failed" or
    starts with "Schema validation process failed: ". *)
Theorem validateConfig_failure_classified
  {Json : Type} (w : Loading.World Json) (data : Json) (e : Thrown) :
  Loading.validateConfig w data = Throw e ->
  exists message,
    e = ErrorObject message
    /\ (Builtins.includes message "Configuration validation failed" = true
        \/ exists cause, message = "Schema validation process failed: " ++ cause).
Proof.
  unfold Loading.validateConfig.
  match goal with
  | |- tryCatch ?body _ = _ -> _ => destruct body as [config|error]
  end; simpl; [discriminate|].
  destruct (Loading.isErrorIncluding error "Configuration validation failed") eqn:Hinc;
    intros H; injection H as <-.
  - destruct error as [message|text]; [|discriminate Hinc].
    exists message. split; [reflexivity | left; exact Hinc].
  - eexists. split; [reflexivity|]. right. eexists. reflexivity.
Qed.

Lemma validateConfig_failure_classified_witness :
  exists message,
    ErrorObject "Schema validation process failed: Schema file not found: dist/config-schema.json"
    = ErrorObject message
    /\ (Builtins.includes message "Configuration validation failed" = true
        \/ exists cause, message = "Schema validation process failed: " ++ cause).
Proof.
  apply (validateConfig_failure_classified Worlds.worldWithoutSchema None).
  reflexivity.
Defined.

(** X12. Without the schema file no document is validated: [validateConfig]
    throws "Schema validation process failed: Schema file not found: <path>"
    for every document, unless the path itself contains the text
    "Configuration validation failed", in which case the inner error is
    thrown again as it is. *)
Theorem validateConfig_missing_schema
  {Json : Type} (w : Loading.World Json) (data : Json) :
  Loading.FileSystem_exists w (Loading.schemaPath w) = false ->
  Loading.validateConfig w data
  = if Builtins.includes ("Schema file not found: " ++ Loading.schemaPath w)
                         "Configuration validation failed"
    then Throw (ErrorObject ("Schema file not found: " ++ Loading.schemaPath w))
    else Throw (ErrorObject ("Schema validation process failed: Schema file not found: "
                             ++ Loading.schemaPath w)).
Proof.
  intros Hmissing. unfold Loading.validateConfig, Loading.getSchema.
  rewrite Hmissing. simpl.
  destruct (Builtins.includes _ _); reflexivity.
Qed.

Lemma validateConfig_missing_schema_witness :
  Loading.validateConfig Worlds.worldWithoutSchema (Some Worlds.sampleConfig)
  = Throw (ErrorObject
             "Schema validation process failed: Schema file not found: dist/config-schema.json").
Proof.
  apply (validateConfig_missing_schema Worlds.worldWithoutSchema (Some Worlds.sampleConfig)).
  reflexivity.
Defined.

(** X13. Until a configuration has been loaded every getter throws
    "Configuration not loaded. Call loadConfig() first.", [getCommand]
    included (it does not answer [undefined]); once one is loaded none of them
    throws. *)
Theorem getters_require_loaded_configuration
  (this : Loading.ConfigurationManager) (name : string) :
  (Loading.isLoaded this = false ->
   Loading.getConfig this
   = Throw (ErrorObject "Configuration not loaded. Call loadConfig() first.")
   /\ Loading.getCommands this
      = Throw (ErrorObject "Configuration not loaded. Call loadConfig() first.")
   /\ Loading.getCommand this name
      = Throw (ErrorObject "Configuration not loaded. Call loadConfig() first."))
  /\
  (Loading.isLoaded this = true ->
   exists config,
     Loading.getConfig this = Normal config
     /\ Loading.getCommands this = Normal (Loading.commands config)
     /\ Loading.getCommand this name
        = Normal (find (fun cmd => (cmd_name cmd =? name)%string)
                       (Loading.commands config))).
Proof.
  unfold Loading.isLoaded, Loading.getCommand, Loading.getCommands, Loading.getConfig.
  destruct (Loading._config this) as [config|]; split; intros H; try discriminate H.
  - exists config. repeat split.
  - repeat split.
Qed.

Lemma getters_require_loaded_configuration_witness :
  Loading.getCommand (Loading.newConfigurationManager "config.json") "echo-test"
  = Throw (ErrorObject "Configuration not loaded. Call loadConfig() first.").
Proof.
  destruct (getters_require_loaded_configuration
              (Loading.newConfigurationManager "config.json") "echo-test") as [Hnot _].
  destruct (Hnot eq_refl) as [_ [_ H]]. exact H.
Defined.

(** X14. [loadConfig] either stores the validated content of the file, after
    which the manager is loaded and [getConfig] returns that configuration,
    or throws an [Error] whose message starts with "Failed to load
    configuration: " and leaves the manager as it was, a configuration loaded
    earlier included.  When the file does not exist the message is "Failed
    to load configuration: Configuration file not found: <path>". *)
Theorem loadConfig_outcome
  {Json : Type} (w : Loading.World Json) (this : Loading.ConfigurationManager) :
  (match snd (Loading.loadConfig w this) with
   | Normal _ =>
       exists data config,
         Loading.FileSystem_exists w (Loading._configFilePath this) = true
         /\ Loading.JsonFile_load w (Loading._configFilePath this) = Normal data
         /\ Loading.validateConfig w data = Normal config
         /\ fst (Loading.loadConfig w this)
            = {| Loading._config := Some config;
                 Loading._configFilePath := Loading._configFilePath this |}
         /\ Loading.isLoaded (fst (Loading.loadConfig w this)) = true
         /\ Loading.getConfig (fst (Loading.loadConfig w this)) = Normal config
   | Throw e =>
       fst (Loading.loadConfig w this) = this
       /\ exists cause, e = ErrorObject ("Failed to load configuration: " ++ cause)
   end)
  /\
  (Loading.FileSystem_exists w (Loading._configFilePath this) = false ->
   Loading.loadConfig w this
   = (this, Throw (ErrorObject ("Failed to load configuration: Configuration file not found: "
                                ++ Loading._configFilePath this)))).
Proof.
  unfold Loading.loadConfig. split.
  - destruct (Loading.FileSystem_exists w (Loading._configFilePath this)); cbn [negb].
    + destruct (Loading.JsonFile_load w (Loading._configFilePath this)) as [data|e];
        cbn [bind tryCatch fst snd].
      * destruct (Loading.validateConfig w data) as [config|e] eqn:Hv;
          cbn [tryCatch fst snd].
        -- exists data, config. repeat split; assumption.
        -- split; [reflexivity|]. eexists. reflexivity.
      * split; [reflexivity|]. eexists. reflexivity.
    + cbn [tryCatch fst snd]. split; [reflexivity|]. eexists. reflexivity.
  - intros ->. reflexivity.
Qed.

Lemma loadConfig_outcome_witness :
  Loading.loadConfig Worlds.sampleWorld
    {| Loading._config := Some Worlds.sampleConfig;
       Loading._configFilePath := "missing.json" |}
  = ({| Loading._config := Some Worlds.sampleConfig;
        Loading._configFilePath := "missing.json" |},
     Throw (ErrorObject
              "Failed to load configuration: Configuration file not found: missing.json")).
Proof.
  destruct (loadConfig_outcome Worlds.sampleWorld
              {| Loading._config := Some Worlds.sampleConfig;
                 Loading._configFilePath := "missing.json" |}) as [_ Hmissing].
  apply Hmissing. reflexivity.
Defined.

(** X15. On a loaded manager [getCommand] answers with the first command of
    the configuration that carries the requested name, and with [undefined]
    exactly when no command carries it. *)
Theorem getCommand_finds_first
  (this : Loading.ConfigurationManager) (config : Loading.IConfig) (name : string) :
  Loading._config this = Some config ->
  exists found,
    Loading.getCommand this name = Normal found
    /\ (forall cmd, found = Some cmd ->
          cmd_name cmd = name
          /\ exists before after,
               Loading.commands config = (before ++ cmd :: after)%list
               /\ forall other, In other before -> cmd_name other <> name)
    /\ (found = None <->
        forall cmd, In cmd (Loading.commands config) -> cmd_name cmd <> name).
Proof.
  intros Hloaded.
  unfold Loading.getCommand, Loading.getCommands, Loading.getConfig.
  rewrite Hloaded. cbn [bind].
  eexists. split; [reflexivity|].
  generalize (Loading.commands config) as l. intros l. split.
  - induction l as [|c l IH]; simpl; intros cmd Hfound; [discriminate|].
    destruct (String.eqb_spec (cmd_name c) name) as [Heq|Hne].
    + injection Hfound as <-. split; [exact Heq|].
      exists [], l. split; [reflexivity | contradiction].
    + destruct (IH cmd Hfound) as [Hname [before [after [Hl Hbefore]]]].
      split; [exact Hname|].
      exists (c :: before), after. split; [simpl; now rewrite Hl|].
      intros other [<-|Hin]; [exact Hne | now apply Hbefore].
  - split.
    + intros Hnone cmd Hin Hname.
      apply (find_none _ _ Hnone) in Hin. simpl in Hin.
      apply String.eqb_neq in Hin. contradiction.
    + intros Hall.
      destruct (find _ l) as [cmd|] eqn:Hf; [|reflexivity].
      apply find_some in Hf. destruct Hf as [Hin Heq].
      apply String.eqb_eq in Heq. exfalso. exact (Hall cmd Hin Heq).
Qed.

Lemma getCommand_finds_first_witness :
  exists found,
    Loading.getCommand
      {| Loading._config := Some Worlds.sampleConfig;
         Loading._configFilePath := "config.json" |} "listing" = Normal found
    /\ (forall cmd, found = Some cmd ->
          cmd_name cmd = "listing"
          /\ exists before after,
               Loading.commands Worlds.sampleConfig = (before ++ cmd :: after)%list
               /\ forall other, In other before -> cmd_name other <> "listing")
    /\ (found = None <->
        forall cmd, In cmd (Loading.commands Worlds.sampleConfig) ->
                    cmd_name cmd <> "listing").
Proof.
  apply (getCommand_finds_first
           {| Loading._config := Some Worlds.sampleConfig;
              Loading._configFilePath := "config.json" |} Worlds.sampleConfig "listing").
  reflexivity.
Defined.

Section ResolveFacts.

Import Builtins Loading.
Context {Json : Type}.
Variable w : World Json.



End ResolveFacts.



(** X17. With no source on the command line or in the environment, a
    standard input that is empty or holds only white space makes
    [resolveConfiguration] throw "Failed to read/parse configuration from
    stdin: No configuration provided via stdin"; nothing is parsed. *)
Theorem resolveConfiguration_empty_stdin
  {Json : Type} (w : Loading.World Json) (configFile config : option string)
  (raw : string) :
  Builtins.truthyOption config = false ->
  Builtins.truthyOption configFile = false ->
  Builtins.truthyOption (Loading.CONFIG_JSON_ENV w) = false ->
  Builtins.truthyOption (Loading.CONFIG_FILE_PATH_ENV w) = false ->
  Loading.stdin_data w = Normal raw ->
  Builtins.trim raw = "" ->
  Loading.resolveConfiguration w configFile config
  = Throw (ErrorObject
             "Failed to read/parse configuration from stdin: No configuration provided via stdin").
Proof.
  intros Hc Hf Hej Hep Hstdin Htrim.
  unfold Loading.resolveConfiguration, Loading.readConfigFromStdin.
  rewrite Hc, Hf, Hej, Hep, Hstdin. cbn [bind]. rewrite Htrim. reflexivity.
Qed.

Lemma resolveConfiguration_empty_stdin_witness :
  Loading.resolveConfiguration
    {| Loading.schemaPath := "dist/config-schema.json";
       Loading.FileSystem_exists := fun _ => true;
       Loading.FileSystem_readFile := fun _ => Normal "{}";
       Loading.JsonFile_load := fun _ => Normal (Some Worlds.sampleConfig);
       Loading.JSON_parse := fun _ => Normal (Some Worlds.sampleConfig);
       Loading.ajv_compile := Loading.ajv_compile Worlds.sampleWorld;
       Loading.asIConfig := Loading.asIConfig Worlds.sampleWorld;
       Loading.CONFIG_FILE_PATH_ENV := Some "";
       Loading.CONFIG_JSON_ENV := None;
       Loading.stdin_data := Normal (" " ++ Builtins.LF) |}
    None (Some "")
  = Throw (ErrorObject
             "Failed to read/parse configuration from stdin: No configuration provided via stdin").
Proof.
  apply (resolveConfiguration_empty_stdin _ None (Some "") (" " ++ Builtins.LF));
    reflexivity.
Defined.

(* ================================================================== *)
(** ** The tool registered for a command *)
(* ================================================================== *)

Section CallbackFacts.

Import Builtins Server.
Variable spawnSync : string -> list string -> Completion SpawnSyncReturns.
Variable command : ICommandLineEntry.
Variable params : ICommandExecutionParams.

(** What [executeCommand] returns, by the outcome of the spawn. *)
Lemma executeCommand_cases :
  executeCommand spawnSync command params
  = match spawnSync (fst (commandLine command params)) (snd (commandLine command params)) with
    | Normal result =>
        Normal {| success := match spawn_status result with
                             | Some code => (code =? 0)%Z
                             | None => false
                             end;
                  stdout := orEmpty (spawn_stdout result);
                  stderr := orEmpty (spawn_stderr result);
                  exitCode := match spawn_status result with
                              | Some code => code
                              | None => 0%Z
                              end |}
    | Throw e =>
        Normal {| success := false; stdout := ""; stderr := errorMessage e;
                  exitCode := (-1)%Z |}
    end.
Proof.
  unfold executeCommand.
  destruct (commandLine command params) as [executable allArgs]. simpl.
  destruct (spawnSync executable allArgs); reflexivity.
Qed.

Lemma validation_gate :
  (0 <? List.length (validateParameters command params))%nat
  = match validateParameters command params with
    | [] => false
    | _ :: _ => true
    end.
Proof. destruct (validateParameters command params); reflexivity. Qed.

End CallbackFacts.

(** X18. The tool callback always answers: for every behaviour of the spawn,
    every command and every parameter object it returns a reply, whose
    content is a single text element, and it never throws. *)
Theorem toolCallback_total
  (spawnSync : string -> list string -> Completion SpawnSyncReturns)
  (command : ICommandLineEntry) (params : ICommandExecutionParams) :
  exists reply message,
    Server.toolCallback spawnSync command params = Normal reply
    /\ Server.content reply
       = [{| Server.content_type := "text"; Server.text := message |}].
Proof.
  unfold Server.toolCallback.
  rewrite validation_gate, executeCommand_cases.
  destruct (validateParameters command params) as [|m l]; cbn [bind tryCatch].
  - destruct (spawnSync _ _); cbn [bind tryCatch]; eexists _, _; split; reflexivity.
  - eexists _, _. split; reflexivity.
Qed.

(** X19. When validation reports errors the command is not run: whatever
    the spawn would do, the reply is an error whose text is "Error executing
    command: Parameter validation failed: " followed by all the messages
    joined by ", ". *)
Theorem toolCallback_validation_failure
  (spawnSync : string -> list string -> Completion SpawnSyncReturns)
  (command : ICommandLineEntry) (params : ICommandExecutionParams) :
  validateParameters command params <> [] ->
  Server.toolCallback spawnSync command params
  = Normal {| Server.content :=
                [{| Server.content_type := "text";
                    Server.text :=
                      "Error executing command: Parameter validation failed: "
                      ++ Builtins.join ", " (validateParameters command params) |}];
              Server.isError := true |}.
Proof.
  intros Hne. unfold Server.toolCallback. rewrite validation_gate.
  destruct (validateParameters command params) as [|m l]; [contradiction|].
  reflexivity.
Qed.

Lemma toolCallback_validation_failure_witness :
  Server.toolCallback Samples.spawnNotFound Samples.listing []
  = Normal {| Server.content :=
                [{| Server.content_type := "text";
                    Server.text :=
                      "Error executing command: Parameter validation failed: Required argument 'message' is missing, Required argument 'level' is missing" |}];
              Server.isError := true |}.
Proof.
  apply (toolCallback_validation_failure Samples.spawnNotFound Samples.listing []).
  discriminate.
Defined.

(** X20. A reply is not marked as an error exactly when validation reported
    nothing and the child ran and ended with status 0. *)
Theorem toolCallback_not_error_iff
  (spawnSync : string -> list string -> Completion SpawnSyncReturns)
  (command : ICommandLineEntry) (params : ICommandExecutionParams)
  (reply : Server.CallToolResult) :
  Server.toolCallback spawnSync command params = Normal reply ->
  (Server.isError reply = false
   <-> validateParameters command params = []
       /\ exists result,
            spawnSync (fst (commandLine command params)) (snd (commandLine command params))
            = Normal result
            /\ spawn_status result = Some 0%Z).
Proof.
  unfold Server.toolCallback.
  rewrite validation_gate, executeCommand_cases.
  destruct (validateParameters command params) as [|m l]; cbn [bind tryCatch].
  - destruct (spawnSync _ _) as [result|e]; cbn [bind tryCatch success];
      intros H; injection H as <-; cbn [Server.isError].
    + destruct (spawn_status result) as [code|] eqn:Hst; split.
      * intros H. apply negb_false_iff, Z.eqb_eq in H. subst code.
        split; [reflexivity|]. exists result. auto.
      * intros [_ [result' [Hr Hs]]]. injection Hr as <-.
        rewrite Hst in Hs. injection Hs as ->. reflexivity.
      * discriminate.
      * intros [_ [result' [Hr Hs]]]. injection Hr as <-.
        rewrite Hst in Hs. discriminate Hs.
    + split; [discriminate|]. intros [_ [result' [Hr _]]]. discriminate Hr.
  - intros H. injection H as <-. cbn [Server.isError].
    split; [discriminate|]. intros [Hnil _]. discriminate Hnil.
Qed.

Lemma toolCallback_not_error_iff_witness :
  Server.isError
    {| Server.content :=
         [{| Server.content_type := "text";
             Server.text :=
               "Command executed successfully:" ++ Builtins.LF ++ Builtins.LF
               ++ "STDOUT:" ++ Builtins.LF ++ "--message hi" ++ Builtins.LF
               ++ Builtins.LF ++ Builtins.LF ++ "STDERR:" ++ Builtins.LF
               ++ Builtins.LF ++ Builtins.LF ++ "Exit Code: 0" |}];
       Server.isError := false |} = false
  <-> validateParameters Samples.echoTest [("message", VString "hi")] = []
      /\ exists result,
           Samples.spawnEcho 0
             (fst (commandLine Samples.echoTest [("message", VString "hi")]))
             (snd (commandLine Samples.echoTest [("message", VString "hi")]))
           = Normal result
           /\ spawn_status result = Some 0%Z.
Proof.
  apply (toolCallback_not_error_iff (Samples.spawnEcho 0) Samples.echoTest
           [("message", VString "hi")]).
  vm_compute. reflexivity.
Defined.

(** X21. A spawn that throws does not surface as "Error executing command":
    [executeCommand] has already turned it into a result, so after a passed
    validation the reply is the error reply "Command failed:" with an empty
    STDOUT, the failure message as STDERR and "Exit Code: -1". *)
Theorem toolCallback_spawn_failure
  (spawnSync : string -> list string -> Completion SpawnSyncReturns)
  (command : ICommandLineEntry) (params : ICommandExecutionParams) (e : Thrown) :
  validateParameters command params = [] ->
  spawnSync (fst (commandLine command params)) (snd (commandLine command params))
  = Throw e ->
  Server.toolCallback spawnSync command params
  = Normal {| Server.content :=
                [{| Server.content_type := "text";
                    Server.text :=
                      "Command failed:" ++ Builtins.LF ++ Builtins.LF
                      ++ "STDOUT:" ++ Builtins.LF ++ Builtins.LF ++ Builtins.LF
                      ++ "STDERR:" ++ Builtins.LF ++ errorMessage e
                      ++ Builtins.LF ++ Builtins.LF ++ "Exit Code: -1" |}];
              Server.isError := true |}.
Proof.
  intros Hvalid Hspawn. unfold Server.toolCallback.
  rewrite validation_gate, executeCommand_cases, Hvalid, Hspawn.
  cbn [bind tryCatch success stdout stderr exitCode negb].
  replace (Builtins.interpolateNumber (-1)) with "-1" by (vm_compute; reflexivity).
  reflexivity.
Qed.

Lemma toolCallback_spawn_failure_witness :
  Server.toolCallback Samples.spawnNotFound Samples.echoTest [("message", VString "hi")]
  = Normal {| Server.content :=
                [{| Server.content_type := "text";
                    Server.text :=
                      "Command failed:" ++ Builtins.LF ++ Builtins.LF
                      ++ "STDOUT:" ++ Builtins.LF ++ Builtins.LF ++ Builtins.LF
                      ++ "STDERR:" ++ Builtins.LF
                      ++ "The executable file was not found: echo"
                      ++ Builtins.LF ++ Builtins.LF ++ "Exit Code: -1" |}];
              Server.isError := true |}.
Proof.
  apply (toolCallback_spawn_failure Samples.spawnNotFound Samples.echoTest
           [("message", VString "hi")]
           (ErrorObject "The executable file was not found: echo")).
  - reflexivity.
  - reflexivity.
Defined.

Section SchemaObjectFacts.

Import Builtins Server.




End SchemaObjectFacts.



(* ================================================================== *)
(** ** Validation and vector together *)
(* ================================================================== *)



(** X24. Building the vector performs no validation: the declared type and
    the required flag of the arguments play no part in it, so two commands
    whose arguments agree on names and defaults give the same vector, and a
    value that [validateParameters] rejects is forwarded all the same. *)
Theorem vector_ignores_type_and_requiredness
  (command command' : ICommandLineEntry) (params : ICommandExecutionParams) :
  Forall2 (fun a b => arg_name a = arg_name b /\ arg_defaultValue a = arg_defaultValue b)
          (cmd_arguments command) (cmd_arguments command') ->
  _buildCommandArguments command params = _buildCommandArguments command' params.
Proof.
  intros Hagree. rewrite !_buildCommandArguments_spec.
  induction Hagree as [|a b l l' [Hname Hdef] _ IH]; [reflexivity|].
  simpl. rewrite IH. f_equal.
  unfold contributionSpec. now rewrite Hname, Hdef.
Qed.

Lemma vector_ignores_type_and_requiredness_witness :
  _buildCommandArguments Samples.echoTest [("message", VNumber (ofZ 5))]
  = _buildCommandArguments
      {| cmd_name := "echo-test"; cmd_description := "Echo a message";
         cmd_command := "echo";
         cmd_arguments :=
           [{| arg_name := "message"; arg_description := "";
               arg_type := TNumber; arg_required := false;
               arg_defaultValue := None |}] |}
      [("message", VNumber (ofZ 5))].
Proof.
  apply (vector_ignores_type_and_requiredness Samples.echoTest).
  simpl. repeat constructor.
Defined.
